(** * pdf-resizer: the B5 resize operation and its interactive shell

    A shallow embedding of [main.py].  Python floats are idealised to exact
    rationals ([Q], compared with [==]); the module [Float64] repeats the fit
    geometry in the binary64 arithmetic the interpreter runs.  Strings are
    UTF-8 byte strings; paths follow pathlib's POSIX flavour (CPython 3.12).
    The PDF library (PyMuPDF over MuPDF) and the file system are an explicit
    [World] threaded through every call; an exception is the [Raise] branch of
    a [result].  Of the library the model keeps what the program can observe:
    page boxes are held in single precision, an empty page box is reported as
    612 x 792, [show_pdf_page] refuses an empty rectangle and a source page
    without contents, and [save] refuses a document without pages. *)

From Stdlib Require Import QArith Qminmax Qround Lqa ZArith Ascii String Floats.
From stdpp Require Import gmap strings list fin_maps.

(** ** Python values: exceptions, results, numbers *)

(** Instances of Python's [Exception] class that the program can meet.  The
    string is what [str(e)] gives. *)
Inductive exn : Type :=
| ZeroDivisionError (msg : string)
| ValueError (msg : string)
| FileNotFoundError (msg : string)
| FileDataError (msg : string)
| RuntimeError (msg : string)
| OSError (msg : string).

Definition exn_str (e : exn) : string :=
  match e with
  | ZeroDivisionError m | ValueError m | FileNotFoundError m
  | FileDataError m | RuntimeError m | OSError m => m
  end.

Inductive result (A : Type) : Type :=
| Ok (a : A)
| Raise (e : exn).
Arguments Ok {A} a.
Arguments Raise {A} e.

(** Sequencing of fallible steps, written [x ← r; k]: the first exception
    ends the computation. *)
Global Instance result_ret : MRet result := λ A a, Ok a.
Global Instance result_bind : MBind result := λ A B k r,
  match r with
  | Ok a => k a
  | Raise e => Raise e
  end.

(** [a / b] on floats: a zero divisor raises. *)
Definition truediv (a b : Q) : result Q :=
  if Qeq_bool b 0 then Raise (ZeroDivisionError "float division by zero")
  else Ok (a / b)%Q.

(** The builtin [min(a, b)]: the second argument wins only when it is strictly
    smaller. *)
Definition py_min (a b : Q) : Q :=
  match (b ?= a)%Q with
  | Lt => b
  | _ => a
  end.

(** ** Module constants (lines 14-16) *)

Definition B5_W_MM : Q := 182.
Definition B5_H_MM : Q := 257.
Definition MM_TO_PT : Q := (72 / 25.4)%Q.
Definition B5_W_PT : Q := (B5_W_MM * MM_TO_PT)%Q.
Definition B5_H_PT : Q := (B5_H_MM * MM_TO_PT)%Q.

(** ** Single precision *)

(** The integer nearest to [a / b] for [0 <= a] and [0 < b], ties to even. *)
Definition round_div (a b : Z) : Z :=
  let q := (a / b)%Z in
  let r := (a mod b)%Z in
  match (2 * r ?= b)%Z with
  | Lt => q
  | Gt => (q + 1)%Z
  | Eq => if Z.even q then q else (q + 1)%Z
  end.

(** Numerator and denominator of [n / d] divided by [2 ^ k]. *)
Definition scaled (n d : positive) (k : Z) : Z * Z :=
  if (0 <=? k)%Z then (Zpos n, (Zpos d * 2 ^ k)%Z)
  else ((Zpos n * 2 ^ (- k))%Z, Zpos d).

(** [n / d] rounded to 24 significant binary digits: [k] is chosen so that
    [n / d / 2 ^ k] lies in [[2^23, 2^24)]. *)
Definition f32_pos (n d : positive) : Q :=
  let k0 := (Z.log2 (Zpos n) - Z.log2 (Zpos d) - 24)%Z in
  let '(a0, b0) := scaled n d k0 in
  let k := if (2 ^ 24 * b0 <=? a0)%Z then (k0 + 1)%Z else k0 in
  let '(a, b) := scaled n d k in
  let m := round_div a b in
  Qred (if (0 <=? k)%Z then inject_Z (m * 2 ^ k) else m # Z.to_pos (2 ^ (- k))).

(** The number a C [float] keeps for [x]: rounding to nearest, ties to even
    (the exponent range is not modelled). *)
Definition f32 (x : Q) : Q :=
  match Qnum x with
  | Z0 => 0
  | Zpos n => f32_pos n (Qden x)
  | Zneg n => (- f32_pos n (Qden x))%Q
  end.

(** ** Documents and pages *)

(** [fitz.Rect(x0, y0, x1, y1)] and its [is_empty]. *)
Record Rect : Type := mkRect { x0 : Q; y0 : Q; x1 : Q; y1 : Q }.

Definition rect_is_empty (r : Rect) : bool :=
  Qle_bool (x1 r) (x0 r) || Qle_bool (y1 r) (y0 r).

(** A page: [box_width] and [box_height] are the sides of its page box as the
    library holds them, [drawn] tells whether it has a content stream of its
    own, and [shown] lists the [show_pdf_page] calls made on it, each with its
    target rectangle and the number of the source page it embeds. *)
Record Page : Type := mkPage {
  box_width : Q;
  box_height : Q;
  drawn : bool;
  shown : list (Rect * nat)
}.

(** A page box with a side that is not positive is empty. *)
Definition box_empty (p : Page) : bool :=
  Qle_bool (box_width p) 0 || Qle_bool (box_height p) 0.

(** The page as the program sees it: [rect_width] and [rect_height] are
    [page.rect.width] and [page.rect.height].  The library reports an empty
    page box as the default 612 x 792. *)
Definition rect_width (p : Page) : Q := if box_empty p then 612 else box_width p.
Definition rect_height (p : Page) : Q := if box_empty p then 792 else box_height p.

(** [page.get_contents()] is not empty. *)
Definition has_contents (p : Page) : bool :=
  drawn p || match shown p with [] => false | _ => true end.

(** A document is its pages in order; iterating it yields page [i] with
    [number = i]. *)
Abbreviation Document := (list Page).

(** [doc.new_page(width=w, height=h)]: appends an empty page, whose box the
    library holds in single precision, and returns its index together with the
    document. *)
Definition new_page (dst : Document) (w h : Q) : Document * nat :=
  (dst ++ [mkPage (f32 w) (f32 h) false []], length dst).

(** [page.show_pdf_page(dest, src, pno, keep_proportion=True)] on the page at
    index [i] of [dst]: the library refuses an empty rectangle, a page number
    outside [src] and a source page that has no contents. *)
Definition show_pdf_page (dst : Document) (i : nat) (dest : Rect)
    (src : Document) (pno : nat) : result Document :=
  if rect_is_empty dest then Raise (ValueError "rect must be finite and not empty")
  else
    match src !! pno with
    | None => Raise (ValueError "page not in document")
    | Some sp =>
        if has_contents sp then
          Ok (alter (λ p, mkPage (box_width p) (box_height p) (drawn p)
                                 (shown p ++ [(dest, pno)])) i dst)
        else Raise (ValueError "nothing to show - source page empty")
    end.

(** ** The fit geometry (lines 25-28) *)

(** Line 25. *)
Definition fit_scale (W H : Q) : result Q :=
  (a ← truediv B5_W_PT W ;
   b ← truediv B5_H_PT H ;
   Ok (py_min a b)).

(** Lines 26-28; the divisor [2] is a nonzero literal. *)
Definition fit_rect (W H : Q) : result Rect :=
  (s ← fit_scale W H ;
   let dw := (W * s)%Q in
   let dh := (H * s)%Q in
   let x0 := ((B5_W_PT - dw) / 2)%Q in
   let y0 := ((B5_H_PT - dh) / 2)%Q in
   Ok (mkRect x0 y0 (x0 + dw)%Q (y0 + dh)%Q)).

(** ** The fit geometry in binary64 *)

(** Lines 14-16 and 25-28 again, with every operation rounded as Python's
    [float] rounds it (IEEE 754 binary64, to nearest, ties to even). *)
Module Float64.

Local Open Scope float_scope.

Record Rect : Type := mkRect { x0 : float; y0 : float; x1 : float; y1 : float }.

Definition truediv (a b : float) : result float :=
  if b =? 0 then Raise (ZeroDivisionError "float division by zero")
  else Ok (a / b).

Definition py_min (a b : float) : float := if b <? a then b else a.

Definition B5_W_MM : float := 182.
Definition B5_H_MM : float := 257.
(** The literal [25.4] denotes the binary64 number nearest to it. *)
Definition MM_TO_PT : float := 72 / 0x1.9666666666666p+4.
Definition B5_W_PT : float := B5_W_MM * MM_TO_PT.
Definition B5_H_PT : float := B5_H_MM * MM_TO_PT.

Definition fit_scale (W H : float) : result float :=
  (a ← truediv B5_W_PT W ;
   b ← truediv B5_H_PT H ;
   Ok (py_min a b)).

Definition fit_rect (W H : float) : result Rect :=
  (s ← fit_scale W H ;
   let dw := W * s in
   let dh := H * s in
   let x0 := (B5_W_PT - dw) / 2 in
   let y0 := (B5_H_PT - dh) / 2 in
   Ok (mkRect x0 y0 (x0 + dw) (y0 + dh))).

End Float64.

(** One iteration of the loop (lines 23-29) for page [sp] of [src], whose
    number is [pno]. *)
Definition resize_page (dst src : Document) (pno : nat) (sp : Page)
    : result Document :=
  let '(dst1, newp) := new_page dst B5_W_PT B5_H_PT in
  (dest ← fit_rect (rect_width sp) (rect_height sp) ;
   show_pdf_page dst1 newp dest src pno).

(** The loop [for sp in src] (line 22) over the pages [rest] still to come,
    the first of which has number [pno]. *)
Fixpoint resize_pages (dst src : Document) (pno : nat) (rest : list Page)
    : result Document :=
  match rest with
  | [] => Ok dst
  | sp :: rest' =>
      (dst' ← resize_page dst src pno sp ; resize_pages dst' src (S pno) rest')
  end.

(** ** Python strings *)

(** [c.lower()] and [c.isspace()] for an ASCII character. *)
Definition ascii_lower (c : ascii) : ascii :=
  let n := nat_of_ascii c in
  if (65 <=? n) && (n <=? 90) then ascii_of_nat (n + 32) else c.

Definition ascii_isspace (c : ascii) : bool :=
  let n := nat_of_ascii c in
  ((9 <=? n) && (n <=? 13)) || ((28 <=? n) && (n <=? 32)).

Fixpoint str_lower (s : string) : string :=
  match s with
  | "" => ""
  | String c s' => String (ascii_lower c) (str_lower s')
  end.

(** The whitespace characters outside ASCII, by their UTF-8 bytes: U+0085 and
    U+00A0 take two bytes; U+1680, U+2000 to U+200A, U+2028, U+2029, U+202F,
    U+205F and U+3000 take three. *)
Definition byte_is (n : nat) (c : ascii) : bool := nat_of_ascii c =? n.

Definition ws2 (c d : ascii) : bool :=
  byte_is 194 c && (byte_is 133 d || byte_is 160 d).

Definition ws3 (c d e : ascii) : bool :=
  (byte_is 225 c && byte_is 154 d && byte_is 128 e)
  || (byte_is 226 c && byte_is 128 d
      && (((128 <=? nat_of_ascii e) && (nat_of_ascii e <=? 138))
          || byte_is 168 e || byte_is 169 e || byte_is 175 e))
  || (byte_is 226 c && byte_is 129 d && byte_is 159 e)
  || (byte_is 227 c && byte_is 128 d && byte_is 128 e).

(** Dropping the whitespace characters at the front of a string.  With
    [back] the string is read back to front, so that the bytes of a character
    come in reverse order. *)
Fixpoint strip_front (back : bool) (s : string) : string :=
  match s with
  | "" => ""
  | String c r =>
      if ascii_isspace c then strip_front back r
      else
        match r with
        | "" => s
        | String d r' =>
            if (if back then ws2 d c else ws2 c d) then strip_front back r'
            else
              match r' with
              | "" => s
              | String e r'' =>
                  if (if back then ws3 e d c else ws3 c d e)
                  then strip_front back r''
                  else s
              end
        end
  end.

Fixpoint str_rev (s : string) : string :=
  match s with
  | "" => ""
  | String c s' => str_rev s' +:+ String c ""
  end.

(** [s.lstrip()] and [s.rstrip()]. *)
Definition str_lstrip (s : string) : string := strip_front false s.

Definition str_rstrip (s : string) : string :=
  str_rev (strip_front true (str_rev s)).

(** [s.strip()]. *)
Definition str_strip (s : string) : string := str_rstrip (str_lstrip s).

(** [s.rfind(c)]: the index of the last [c] in [s], or [-1]. *)
Fixpoint str_rfind (c : ascii) (s : string) : Z :=
  match s with
  | "" => -1
  | String a s' =>
      let r := str_rfind c s' in
      if (0 <=? r)%Z then (r + 1)%Z
      else if decide (a = c) then 0%Z else (-1)%Z
  end.

(** [c in s]. *)
Fixpoint str_contains (c : ascii) (s : string) : bool :=
  match s with
  | "" => false
  | String a s' => bool_decide (a = c) || str_contains c s'
  end.

(** The slices [s[:n]] and [s[n:]] for [0 <= n]. *)
Fixpoint str_take (n : nat) (s : string) : string :=
  match n, s with
  | S n', String c s' => String c (str_take n' s')
  | _, _ => ""
  end.

Fixpoint str_drop (n : nat) (s : string) : string :=
  match n, s with
  | S n', String _ s' => str_drop n' s'
  | _, _ => s
  end.

(** [s.split(sep)] and [sep.join(l)] for a one-character separator. *)
Fixpoint str_split (sep : ascii) (s : string) : list string :=
  match s with
  | "" => [""]
  | String c s' =>
      if decide (c = sep) then "" :: str_split sep s'
      else match str_split sep s' with
           | x :: xs => String c x :: xs
           | [] => [String c ""]
           end
  end.

Fixpoint str_join (sep : ascii) (l : list string) : string :=
  match l with
  | [] => ""
  | [x] => x
  | x :: xs => x +:+ String sep (str_join sep xs)
  end.

Definition nl : string := String "010"%char "".

(** U+3000 and U+00A0 in UTF-8. *)
Definition ideographic_space : string :=
  String "227"%char (String "128"%char (String "128"%char "")).

Definition no_break_space : string := String "194"%char (String "160"%char "").

(** ** pathlib paths, POSIX flavour *)

Definition sep : ascii := "/"%char.

(** A parsed path: the drive is always empty on POSIX, so a path is its root
    (["", "/" or "//"]) and the components after it. *)
Record Path : Type := mkPath { root : string; tail : list string }.

Global Instance Path_eq_dec : EqDecision Path.
Proof. solve_decision. Defined.

(** [s[:1] == sep]. *)
Definition starts_with_sep (s : string) : bool :=
  match s with
  | String c _ => bool_decide (c = sep)
  | "" => false
  end.

(** [posixpath.splitroot]: exactly two leading slashes form the root ["//"],
    any other number of them the root ["/"]. *)
Definition splitroot (p : string) : string * string :=
  if negb (starts_with_sep p) then ("", p)
  else if negb (starts_with_sep (str_drop 1 p)) || starts_with_sep (str_drop 2 p)
  then ("/", str_drop 1 p)
  else ("//", str_drop 2 p).

(** What [Path(s)] keeps as a component: a nonempty string other than ["."]
    without a separator.  A well-formed path has one of the three roots and
    such components only. *)
Definition component (x : string) : Prop :=
  x ≠ "" ∧ x ≠ "." ∧ str_contains sep x = false.

Definition path_wf (p : Path) : Prop :=
  (root p = "" ∨ root p = "/" ∨ root p = "//") ∧ Forall component (tail p).

(** [Path(s)]: empty and ["."] components are dropped. *)
Definition path_of_str (s : string) : Path :=
  let '(rt, rel) := splitroot s in
  mkPath rt (filter (λ x, x ≠ "" ∧ x ≠ ".") (str_split sep rel)).

(** [str(p)]. *)
Definition path_str (p : Path) : string :=
  match root p +:+ str_join sep (tail p) with
  | "" => "."
  | s => s
  end.

(** [p.name]: the last component, or the empty string. *)
Definition path_name (p : Path) : string := default "" (last (tail p)).

(** [p.suffix] and [p.stem]: the name is cut at its last dot unless that dot
    is the first or the last character. *)
Definition path_suffix (p : Path) : string :=
  let name := path_name p in
  let i := str_rfind "."%char name in
  if (0 <? i)%Z && (i <? Z.of_nat (String.length name) - 1)%Z
  then str_drop (Z.to_nat i) name else "".

Definition path_stem (p : Path) : string :=
  let name := path_name p in
  let i := str_rfind "."%char name in
  if (0 <? i)%Z && (i <? Z.of_nat (String.length name) - 1)%Z
  then str_take (Z.to_nat i) name else name.

(** [p.parent]. *)
Definition path_parent (p : Path) : Path :=
  match tail p with
  | [] => p
  | t => mkPath (root p) (removelast t)
  end.

(** [p.with_name(name)] with the name check of CPython 3.12 (3.11 parses the
    name instead and so accepts some names with a separator, such as
    ["./out.pdf"]; the two agree on names without one).  The messages quote
    their argument as [repr] does for a text without quotes or characters that
    it escapes. *)
Definition path_with_name (p : Path) (name : string) : result Path :=
  if decide (path_name p = "") then
    Raise (ValueError ("PosixPath('" +:+ path_str p +:+ "') has an empty name"))
  else if bool_decide (name = "") || str_contains sep name || bool_decide (name = ".") then
    Raise (ValueError ("Invalid name '" +:+ name +:+ "'"))
  else Ok (mkPath (root p) (removelast (tail p) ++ [name])).

(** ** The world: files and dialogs *)

Inductive File : Type :=
| PdfFile (doc : Document)
| OtherFile.

(** The button a [QMessageBox.question] returns. *)
Inductive StandardButton : Type := Yes | No.

Global Instance StandardButton_eq_dec : EqDecision StandardButton.
Proof. solve_decision. Defined.

(** What the user sees, and each entry into the resize operation. *)
Inductive Event : Type :=
| Warning (title text : string)
| Critical (title text : string)
| Question (title text : string)
| Information (title text : string)
| ResizeCall (input_path output_path : string).

(** [fs] maps the string of a path to the file there.  [save_fault] is the
    environment's reason, if any, for which writing a document at a path
    fails.  [answer] is the user's reply to a question dialog, and [events] the
    trace so far, oldest first.  Documents are values: the program never
    closes one, and when the interpreter disposes of the objects is not part
    of the world. *)
Record World : Type := mkWorld {
  fs : gmap string File;
  save_fault : Document → string → option exn;
  answer : string → StandardButton;
  events : list Event
}.

Definition set_fs (f : gmap string File) (w : World) : World :=
  mkWorld f (save_fault w) (answer w) (events w).

Definition emit (e : Event) (w : World) : World :=
  mkWorld (fs w) (save_fault w) (answer w) (events w ++ [e]).

(** Effectful code: a result together with the world it leaves behind; the
    effects made before an exception stay. *)
Definition IO (A : Type) : Type := World → result A * World.

Global Instance IO_ret : MRet IO := λ A a w, (Ok a, w).
Global Instance IO_bind : MBind IO := λ A B k m w,
  match m w with
  | (Ok a, w') => k a w'
  | (Raise e, w') => (Raise e, w')
  end.

(** A pure fallible step inside effectful code. *)
Definition lift {A : Type} (r : result A) : IO A := λ w, (r, w).

Definition tell (e : Event) : IO unit := λ w, (Ok tt, emit e w).

(** [fitz.open(path)]: the pages of the PDF at [path]. *)
Definition fitz_open (path : string) : IO Document := λ w,
  match fs w !! path with
  | Some (PdfFile doc) => (Ok doc, w)
  | Some OtherFile => (Raise (FileDataError ("Failed to open file " +:+ path)), w)
  | None => (Raise (FileNotFoundError ("no such file: " +:+ path)), w)
  end.

(** [fitz.open()]: a new, empty document. *)
Definition fitz_new : IO Document := λ w, (Ok [], w).

(** [doc.save(path)]: the library refuses to save a document without
    pages. *)
Definition fitz_save (doc : Document) (path : string) : IO unit := λ w,
  match doc with
  | [] => (Raise (ValueError "cannot save with zero pages"), w)
  | _ =>
      match save_fault w doc path with
      | Some e => (Raise e, w)
      | None => (Ok tt, set_fs (<[path := PdfFile doc]> (fs w)) w)
      end
  end.

(** [p.exists()], where the operating system answers the query. *)
Definition path_exists (p : Path) (w : World) : bool :=
  bool_decide (is_Some (fs w !! path_str p)).

(** ** The resize operation (lines 19-30) *)

Definition resize_pdf_to_b5 (input_path output_path : Path) : IO unit :=
  tell (ResizeCall (path_str input_path) (path_str output_path)) ;;
  src ← fitz_open (path_str input_path) ;
  dst ← fitz_new ;
  dst' ← lift (resize_pages dst src 0 src) ;
  fitz_save dst' (path_str output_path).

(** ** The interactive shell (class [MainWindow]) *)

Module MainWindow.

(** The two text fields of the window. *)
Record t : Type := mk { input_edit : string; output_name_edit : string }.

(** [__init__]: both fields start empty. *)
Definition init : t := mk "" "".

(** [self.size_combo.currentData()]: the combo box holds the single item
    added on lines 76-77. *)
Definition size_combo_currentData : string * Q * Q := ("B5", B5_W_PT, B5_H_PT).

(** Lines 117-126. *)
Definition refresh_default_output (self : t) : t :=
  if decide (input_edit self = "") then self
  else
    let in_path := path_of_str (input_edit self) in
    let '(label, _, _) := size_combo_currentData in
    let stem := path_stem in_path in
    let default := stem +:+ "_" +:+ label +:+ ".pdf" in
    if decide (output_name_edit self = "")
    then mk (input_edit self) default
    else self.

(** Lines 113-115. *)
Definition set_input_file (self : t) (p : Path) : t :=
  refresh_default_output (mk (path_str p) (output_name_edit self)).

(** Lines 107-111; [path] is what the file dialog returned, empty when it
    was cancelled. *)
Definition browse_input (self : t) (path : string) : t :=
  if decide (path = "") then self else set_input_file self (path_of_str path).

(** [DropArea.dropEvent] (lines 49-54) wired to [set_input_file]; [urls]
    are the local files of the dropped items. *)
Fixpoint dropEvent (self : t) (urls : list string) (w : World) : t :=
  match urls with
  | [] => self
  | u :: rest =>
      let p := path_of_str u in
      if bool_decide (str_lower (path_suffix p) = ".pdf") && path_exists p w
      then set_input_file self p
      else dropEvent self rest w
  end.

(** The user edits the output name field. *)
Definition edit_output_name (self : t) (text : string) : t :=
  mk (input_edit self) text.

(** Lines 137-141: the output path [run] resolves once the input is
    accepted. *)
Definition resolve_output (self : t) (in_path : Path) : result Path :=
  let '(label, _, _) := size_combo_currentData in
  let out_name :=
    match str_strip (output_name_edit self) with
    | "" => path_stem in_path +:+ "_" +:+ label +:+ ".pdf"
    | s => s
    end in
  path_with_name in_path out_name.

(** Lines 149-155. *)
Definition convert (in_path out_path : Path) : IO unit := λ w,
  match resize_pdf_to_b5 in_path out_path w with
  | (Raise e, w') =>
      tell (Critical "失敗" ("出力に失敗しました。" +:+ nl +:+ exn_str e)) w'
  | (Ok _, w') =>
      tell (Information "完了" ("保存しました:" +:+ nl +:+ path_str out_path)) w'
  end.

(** Lines 128-155. *)
Definition run (self : t) : IO unit := λ w,
  if decide (input_edit self = "") then
    tell (Warning "エラー" "入力PDFを指定してください。") w
  else
    let in_path := path_of_str (input_edit self) in
    if negb (path_exists in_path w)
       || negb (bool_decide (str_lower (path_suffix in_path) = ".pdf"))
    then tell (Critical "エラー" "有効なPDFファイルを指定してください。") w
    else
      match resolve_output self in_path with
      | Raise e => (Raise e, w)
      | Ok out_path =>
          if path_exists out_path w then
            let q := path_name out_path +:+ " を上書きしますか？" in
            let w1 := emit (Question "確認" q) w in
            if decide (answer w q = Yes) then convert in_path out_path w1
            else (Ok tt, w1)
          else convert in_path out_path w
      end.

End MainWindow.

(** ** Sample inputs *)

(** An A4 portrait page and a Letter landscape page with contents, a page
    whose box has no height, and a blank A4 page. *)
Definition a4_page : Page := mkPage (f32 595.276) (f32 841.89) true [].
Definition letter_landscape_page : Page := mkPage 792 612 true [].
Definition flat_page : Page := mkPage 300 0 true [].
Definition blank_page : Page := mkPage (f32 595.276) (f32 841.89) false [].

(** A world with three PDFs and one text file, nothing shown yet, a user who
    declines every question and a disk that accepts every write. *)
Definition sample_world : World :=
  mkWorld
    (<["/docs/report.pdf" := PdfFile [a4_page; letter_landscape_page]]>
       (<["/docs/flat.pdf" := PdfFile [a4_page; flat_page]]>
          (<["/docs/blank.pdf" := PdfFile [a4_page; blank_page]]>
             (<["/docs/notes.pdf" := OtherFile]> ∅))))
    (λ _ _, None) (λ _, No) [].

(** ** The drop area (class [DropArea]) and further notions *)

(** [s.endswith(suffix)]. *)
Definition str_endswith (s suffix : string) : bool :=
  (String.length suffix <=? String.length s)
  && bool_decide (str_drop (String.length s - String.length suffix) s = suffix).

Module DropArea.

(** Lines 45-47: whether the drag is accepted.  [has_urls] is
    [e.mimeData().hasUrls()] and [urls] are the local files of the dragged
    items. *)
Definition dragEnterEvent (has_urls : bool) (urls : list string) : bool :=
  has_urls && existsb (λ u, str_endswith (str_lower u) ".pdf") urls.

(** The test of line 52 on one dropped item. *)
Definition droppable (u : string) (w : World) : bool :=
  let p := path_of_str u in
  bool_decide (str_lower (path_suffix p) = ".pdf") && path_exists p w.

End DropArea.

(** The whole target page as a rectangle, and equality of rectangles up to the
    value of their coordinates. *)
Definition full_page : Rect := mkRect 0 0 B5_W_PT B5_H_PT.

Definition Rect_equiv (a b : Rect) : Prop :=
  (x0 a == x0 b)%Q ∧ (y0 a == y0 b)%Q ∧ (x1 a == x1 b)%Q ∧ (y1 a == y1 b)%Q.

(** A rectangle over the full height of the target page that leaves a margin
    of less than a hundred-thousandth of a point on the left and on the
    right. *)
Definition nearly_full_page (r : Rect) : Prop :=
  (0 < x0 r)%Q ∧ (x0 r < 1 / 100000)%Q ∧ (y0 r == 0)%Q ∧
  (B5_W_PT - 1 / 100000 < x1 r)%Q ∧ (x1 r < B5_W_PT)%Q ∧ (y1 r == B5_H_PT)%Q.

(** A message box, as opposed to the entry into the resize operation. *)
Definition is_dialog (e : Event) : bool :=
  match e with
  | ResizeCall _ _ => false
  | _ => true
  end.

(** The page an iteration of the loop leaves in the output: the target size
    as the library holds it, showing source page [pno] in [dest]. *)
Definition fitted_page (dest : Rect) (pno : nat) : Page :=
  mkPage (f32 B5_W_PT) (f32 B5_H_PT) false [(dest, pno)].

(** * Properties *)

(** ** Fit geometry *)

Lemma py_min_Qmin (a b : Q) : py_min a b = Qmin a b.
Proof.
  unfold py_min, Qmin, GenericMinMax.gmin.
  rewrite <- (Qcompare_antisym a b).
  by destruct (a ?= b)%Q.
Qed.

Lemma truediv_nonzero (a b : Q) : ¬ (b == 0)%Q → truediv a b = Ok (a / b)%Q.
Proof.
  intros Hb. unfold truediv.
  destruct (Qeq_bool b 0) eqn:E; [|done].
  by apply Qeq_bool_iff in E.
Qed.

Section FitGeometry.
Local Open Scope Q_scope.
Variables Tw Th W H : Q.
Hypothesis W_pos : 0 < W.
Hypothesis H_pos : 0 < H.

Lemma scale_W_ratio : W * (Tw / W) == Tw.
Proof. field. lra. Qed.

Lemma scale_H_ratio : H * (Th / H) == Th.
Proof. field. lra. Qed.

(** The minimum of the two axis ratios fits both axes and touches one. *)
Lemma min_ratio_fits (s := py_min (Tw / W) (Th / H)) :
  W * s <= Tw ∧ H * s <= Th ∧ (W * s == Tw ∨ H * s == Th).
Proof.
  subst s. unfold py_min.
  destruct (Th / H ?= Tw / W) eqn:E.
  - apply Qeq_alt in E.
    rewrite scale_W_ratio. rewrite <- E at 1. rewrite scale_H_ratio.
    split_and!; [apply Qle_refl..|by left].
  - apply Qlt_alt in E.
    rewrite scale_H_ratio.
    split_and!; [|apply Qle_refl|by right].
    apply Qle_trans with (W * (Tw / W)).
    + apply Qmult_le_l; [done|]. by apply Qlt_le_weak.
    + rewrite scale_W_ratio. apply Qle_refl.
  - apply Qgt_alt in E.
    rewrite scale_W_ratio.
    split_and!; [apply Qle_refl| |by left].
    apply Qle_trans with (H * (Th / H)).
    + apply Qmult_le_l; [done|]. by apply Qlt_le_weak.
    + rewrite scale_H_ratio. apply Qle_refl.
Qed.
End FitGeometry.

(** With positive sides neither division raises. *)
Lemma fit_scale_pos (W H : Q) :
  (0 < W)%Q → (0 < H)%Q →
  fit_scale W H = Ok (py_min (B5_W_PT / W) (B5_H_PT / H))%Q.
Proof.
  intros HW HH. unfold fit_scale.
  rewrite !truediv_nonzero; [done|lra..].
Qed.

(** C1: for a source page of positive width [W] and height [H] the resize
    operation computes the scale [s = min(Tw/W, Th/H)] against the fixed target
    size; in exact arithmetic [W*s <= Tw] and [H*s <= Th], and one of the two is
    an equality. *)
Theorem C1_scale_fits_target (W H : Q) :
  (0 < W)%Q → (0 < H)%Q →
  ∃ s : Q,
    fit_scale W H = Ok s ∧
    s = Qmin (B5_W_PT / W) (B5_H_PT / H) ∧
    (W * s <= B5_W_PT)%Q ∧ (H * s <= B5_H_PT)%Q ∧
    ((W * s == B5_W_PT)%Q ∨ (H * s == B5_H_PT)%Q).
Proof.
  intros HW HH. exists (py_min (B5_W_PT / W) (B5_H_PT / H))%Q.
  split; [by apply fit_scale_pos|].
  split; [apply py_min_Qmin|].
  by apply min_ratio_fits.
Qed.

Lemma C1_scale_fits_target_witness :
  (0 < 595.276)%Q ∧ (0 < 841.89)%Q ∧
  ∃ s : Q,
    fit_scale 595.276 841.89 = Ok s ∧
    s = Qmin (B5_W_PT / 595.276) (B5_H_PT / 841.89) ∧
    (595.276 * s <= B5_W_PT)%Q ∧ (841.89 * s <= B5_H_PT)%Q ∧
    ((595.276 * s == B5_W_PT)%Q ∨ (841.89 * s == B5_H_PT)%Q).
Proof.
  split; [reflexivity|]. split; [reflexivity|].
  apply (C1_scale_fits_target 595.276 841.89); reflexivity.
Defined.

Lemma Qdiv_2_half (a : Q) : (a / 2 == a * (1 # 2))%Q.
Proof. reflexivity. Qed.

(** Centring a length [d] within [T]: the margin is nonnegative, the far end
    stays within [T], and the two margins agree. *)
Lemma centred_margin (T d : Q) :
  (d <= T)%Q →
  (0 <= (T - d) / 2)%Q ∧ ((T - d) / 2 + d <= T)%Q ∧
  ((T - d) / 2 == T - ((T - d) / 2 + d))%Q.
Proof. intros Hd. rewrite !Qdiv_2_half. lra. Qed.

(** The rectangle of lines 26-28 written out in terms of the scale. *)
Lemma fit_rect_pos (W H : Q) :
  (0 < W)%Q → (0 < H)%Q →
  let s := py_min (B5_W_PT / W) (B5_H_PT / H)%Q in
  fit_rect W H =
    Ok (mkRect ((B5_W_PT - W * s) / 2) ((B5_H_PT - H * s) / 2)
               ((B5_W_PT - W * s) / 2 + W * s)
               ((B5_H_PT - H * s) / 2 + H * s))%Q.
Proof.
  intros HW HH s. unfold fit_rect. by rewrite fit_scale_pos.
Qed.

(** Counterexample to C2 as stated: for a 400 x 612 page the height is the
    limiting side, and the vertical offset the code computes in binary64 is
    negative (about -5.7e-14): [612 * (Th / 612)] rounds to just above [Th]. *)
Lemma C2_binary64_offset_negative :
  (0 <? 400)%float = true ∧ (0 <? 612)%float = true ∧
  ∃ (s : float) (r : Float64.Rect),
    Float64.fit_scale 400 612 = Ok s ∧
    Float64.fit_rect 400 612 = Ok r ∧
    (Float64.B5_H_PT <? 612 * s)%float = true ∧
    (Float64.y0 r <? 0)%float = true.
Proof.
  split; [reflexivity|]. split; [reflexivity|].
  eexists _, _. split; [vm_compute; reflexivity|].
  split; [vm_compute; reflexivity|].
  split; vm_compute; reflexivity.
Qed.

(** In exact arithmetic the same page has a vertical offset of zero. *)
Example exact_offset_400_612 :
  ∃ r : Rect, fit_rect 400 612 = Ok r ∧ (y0 r == 0)%Q ∧ (0 < x0 r)%Q.
Proof. eexists. split; [reflexivity|]. split; reflexivity. Qed.

(** C2, amended: for a source page of positive width [W] and height [H] the
    offsets are [x0 = (Tw - W*s)/2] and [y0 = (Th - H*s)/2] with
    [s = min(Tw/W, Th/H)]; in exact arithmetic both are nonnegative, the scaled
    rectangle lies inside the target page and its margins are equal on either
    side of each axis. *)
Theorem C2_offsets_center_content (W H : Q) :
  (0 < W)%Q → (0 < H)%Q →
  ∃ (s : Q) (r : Rect),
    fit_scale W H = Ok s ∧ s = Qmin (B5_W_PT / W) (B5_H_PT / H) ∧
    fit_rect W H = Ok r ∧
    x0 r = ((B5_W_PT - W * s) / 2)%Q ∧ y0 r = ((B5_H_PT - H * s) / 2)%Q ∧
    x1 r = (x0 r + W * s)%Q ∧ y1 r = (y0 r + H * s)%Q ∧
    (0 <= x0 r)%Q ∧ (0 <= y0 r)%Q ∧
    (x1 r <= B5_W_PT)%Q ∧ (y1 r <= B5_H_PT)%Q ∧
    (x0 r == B5_W_PT - x1 r)%Q ∧ (y0 r == B5_H_PT - y1 r)%Q.
Proof.
  intros HW HH.
  destruct (min_ratio_fits B5_W_PT B5_H_PT W H HW HH) as (Hw & Hh & _).
  eexists _, _.
  split; [by apply fit_scale_pos|].
  split; [apply py_min_Qmin|].
  split; [by apply fit_rect_pos|].
  cbn [x0 y0 x1 y1].
  destruct (centred_margin _ _ Hw) as (? & ? & ?).
  destruct (centred_margin _ _ Hh) as (? & ? & ?).
  by split_and!.
Qed.

Lemma C2_offsets_center_content_witness :
  (0 < 595.276)%Q ∧ (0 < 841.89)%Q ∧
  ∃ (s : Q) (r : Rect),
    fit_scale 595.276 841.89 = Ok s ∧
    s = Qmin (B5_W_PT / 595.276) (B5_H_PT / 841.89) ∧
    fit_rect 595.276 841.89 = Ok r ∧
    x0 r = ((B5_W_PT - 595.276 * s) / 2)%Q ∧
    y0 r = ((B5_H_PT - 841.89 * s) / 2)%Q ∧
    x1 r = (x0 r + 595.276 * s)%Q ∧ y1 r = (y0 r + 841.89 * s)%Q ∧
    (0 <= x0 r)%Q ∧ (0 <= y0 r)%Q ∧
    (x1 r <= B5_W_PT)%Q ∧ (y1 r <= B5_H_PT)%Q ∧
    (x0 r == B5_W_PT - x1 r)%Q ∧ (y0 r == B5_H_PT - y1 r)%Q.
Proof.
  split; [reflexivity|]. split; [reflexivity|].
  apply (C2_offsets_center_content 595.276 841.89); reflexivity.
Defined.

(** ** The page loop *)

Lemma alter_new_page {A : Type} (f : A → A) (l : list A) (x : A) :
  alter f (length l) (l ++ [x]) = l ++ [f x].
Proof. induction l as [|y l IH]; [done|]. simpl. by f_equal. Qed.

(** A successful iteration: the geometry and [show_pdf_page] went through,
    and one page of the target size, as the library holds it, was appended. *)
Lemma resize_page_ok (dst src : Document) (pno : nat) (sp : Page)
    (out : Document) :
  resize_page dst src pno sp = Ok out →
  ∃ dest : Rect,
    fit_rect (rect_width sp) (rect_height sp) = Ok dest ∧
    out = dst ++ [fitted_page dest pno].
Proof.
  unfold resize_page, new_page, show_pdf_page.
  destruct (fit_rect (rect_width sp) (rect_height sp)) as [dest|e]; [|done].
  unfold mbind, result_bind. destruct (rect_is_empty dest); [done|].
  destruct (src !! pno) as [sp'|]; [|done].
  destruct (has_contents sp'); [|done].
  rewrite alter_new_page. intros [= <-]. by exists dest.
Qed.

(** An iteration goes through when the rectangle is not empty and the source
    page has contents. *)
Lemma resize_page_succeeds (dst src : Document) (pno : nat) (sp sp' : Page)
    (dest : Rect) :
  fit_rect (rect_width sp) (rect_height sp) = Ok dest →
  rect_is_empty dest = false →
  src !! pno = Some sp' → has_contents sp' = true →
  resize_page dst src pno sp = Ok (dst ++ [fitted_page dest pno]).
Proof.
  intros Hfit Hrect Hsp' Hink. unfold resize_page, new_page, show_pdf_page.
  rewrite Hfit. unfold mbind, result_bind.
  by rewrite Hrect, Hsp', Hink, alter_new_page.
Qed.

(** A completed loop appends one target-size page per source page, in order,
    each showing the source page of its own number in its fitted rectangle. *)
Lemma resize_pages_ok (src rest : list Page) :
  ∀ (dst : Document) (pno : nat) (out : Document),
    resize_pages dst src pno rest = Ok out →
    ∃ new : list Page,
      out = dst ++ new ∧ length new = length rest ∧
      ∀ (i : nat) (sp : Page), rest !! i = Some sp →
        ∃ dest : Rect,
          fit_rect (rect_width sp) (rect_height sp) = Ok dest ∧
          new !! i = Some (fitted_page dest (pno + i)).
Proof.
  induction rest as [|sp rest IH]; intros dst pno out Hrun; simpl in Hrun.
  - exists []. injection Hrun as <-. rewrite app_nil_r. by split_and!.
  - destruct (resize_page dst src pno sp) as [dst'|e] eqn:Hpage; [|done].
    apply resize_page_ok in Hpage as (dest & Hfit & ->). simpl in Hrun.
    apply IH in Hrun as (new & -> & Hlen & Hnew).
    exists (fitted_page dest pno :: new).
    rewrite <- app_assoc. split_and!; [done|simpl; by rewrite Hlen|].
    intros [|i] sp' Hsp'; simpl in *.
    + injection Hsp' as <-. exists dest. by rewrite Nat.add_0_r.
    + destruct (Hnew i sp' Hsp') as (dest' & ? & ?). exists dest'.
      by rewrite <- Nat.add_succ_comm.
Qed.

(** ** The resize operation, step by step *)

Lemma resize_pdf_to_b5_unfold (input_path output_path : Path) (w : World) :
  resize_pdf_to_b5 input_path output_path w =
    let w0 := emit (ResizeCall (path_str input_path) (path_str output_path)) w in
    match fs w !! path_str input_path with
    | Some (PdfFile src) =>
        match resize_pages [] src 0 src with
        | Ok dst => fitz_save dst (path_str output_path) w0
        | Raise e => (Raise e, w0)
        end
    | Some OtherFile =>
        (Raise (FileDataError ("Failed to open file " +:+ path_str input_path)), w0)
    | None =>
        (Raise (FileNotFoundError ("no such file: " +:+ path_str input_path)), w0)
    end.
Proof.
  unfold resize_pdf_to_b5, mbind, IO_bind, tell, fitz_open, fitz_new, lift. simpl.
  destruct (fs w !! path_str input_path) as [[src|]|]; [|done..].
  by destruct (resize_pages [] src 0 src).
Qed.

(** What a successful call read and what it left at the output path. *)
Lemma resize_pdf_to_b5_ok (input_path output_path : Path) (w w' : World) :
  resize_pdf_to_b5 input_path output_path w = (Ok tt, w') →
  ∃ src dst : Document,
    fs w !! path_str input_path = Some (PdfFile src) ∧
    resize_pages [] src 0 src = Ok dst ∧
    dst ≠ [] ∧
    fs w' = <[path_str output_path := PdfFile dst]> (fs w).
Proof.
  rewrite resize_pdf_to_b5_unfold. cbv zeta.
  destruct (fs w !! path_str input_path) as [[src|]|]; [|done..].
  destruct (resize_pages [] src 0 src) as [dst|e] eqn:Hloop; [|done].
  unfold fitz_save. destruct dst as [|dp dst]; [done|].
  destruct (save_fault _ _ _); [done|].
  intros [= <-]. by exists src, (dp :: dst).
Qed.

(** C3: when the resize operation succeeds, the document it leaves at the
    output path has exactly as many pages as the input document (zero, one or
    many), and output page [n] shows input page [n], in the rectangle fitted to
    that page. *)
Theorem C3_page_count_and_order (input_path output_path : Path) (w w' : World) :
  resize_pdf_to_b5 input_path output_path w = (Ok tt, w') →
  ∃ src dst : Document,
    fs w !! path_str input_path = Some (PdfFile src) ∧
    fs w' !! path_str output_path = Some (PdfFile dst) ∧
    length dst = length src ∧
    ∀ (n : nat) (sp : Page), src !! n = Some sp →
      ∃ (dp : Page) (dest : Rect),
        dst !! n = Some dp ∧ shown dp = [(dest, n)] ∧
        fit_rect (rect_width sp) (rect_height sp) = Ok dest.
Proof.
  intros (src & dst & Hsrc & Hloop & _ & Hfs)%resize_pdf_to_b5_ok.
  apply resize_pages_ok in Hloop as (new & -> & Hlen & Hnew).
  exists src, new. split_and!; [done| |done|].
  - rewrite Hfs. apply lookup_insert_eq.
  - intros n sp Hsp. destruct (Hnew n sp Hsp) as (dest & Hfit & Hn).
    by exists (fitted_page dest n), dest.
Qed.

Lemma C3_page_count_and_order_witness :
  let input_path := path_of_str "/docs/report.pdf" in
  let output_path := path_of_str "/docs/report_B5.pdf" in
  let w' := (resize_pdf_to_b5 input_path output_path sample_world).2 in
  resize_pdf_to_b5 input_path output_path sample_world = (Ok tt, w') ∧
  ∃ src dst : Document,
    fs sample_world !! path_str input_path = Some (PdfFile src) ∧
    fs w' !! path_str output_path = Some (PdfFile dst) ∧
    length dst = length src ∧
    ∀ (n : nat) (sp : Page), src !! n = Some sp →
      ∃ (dp : Page) (dest : Rect),
        dst !! n = Some dp ∧ shown dp = [(dest, n)] ∧
        fit_rect (rect_width sp) (rect_height sp) = Ok dest.
Proof.
  intros input_path output_path w'.
  assert (resize_pdf_to_b5 input_path output_path sample_world = (Ok tt, w'))
    as Hrun by (vm_compute; reflexivity).
  split; [exact Hrun|].
  exact (C3_page_count_and_order input_path output_path sample_world w' Hrun).
Defined.

(** ** The size of the output pages *)

(** The target size as a C [float] keeps it. *)
Lemma f32_B5_W_PT : (f32 B5_W_PT == 515.905517578125)%Q.
Proof. reflexivity. Qed.

Lemma f32_B5_H_PT : (f32 B5_H_PT == 728.50396728515625)%Q.
Proof. reflexivity. Qed.

Example f32_samples :
  (f32 0.1 == 13421773 # 134217728)%Q ∧ (f32 595.276 == 595.2760009765625)%Q ∧
  (f32 16777217 == 16777216)%Q ∧ (f32 16777219 == 16777220)%Q ∧
  (f32 (-0.5) == -0.5)%Q ∧ (f32 612 == 612)%Q.
Proof. by split_and!. Qed.

Lemma fitted_page_rect (dest : Rect) (pno : nat) :
  rect_width (fitted_page dest pno) = f32 B5_W_PT ∧
  rect_height (fitted_page dest pno) = f32 B5_H_PT.
Proof. by split. Qed.

(** Counterexample to C4 as stated: the first page of the converted sample
    report is 515.905517578125 by 728.50396728515625 points, the
    single-precision roundings of [Tw] and [Th], and neither side equals [Tw]
    or [Th]. *)
Lemma C4_output_size_is_rounded :
  let input_path := path_of_str "/docs/report.pdf" in
  let output_path := path_of_str "/docs/report_B5.pdf" in
  let w' := (resize_pdf_to_b5 input_path output_path sample_world).2 in
  (resize_pdf_to_b5 input_path output_path sample_world).1 = Ok tt ∧
  ∃ (dst : Document) (dp : Page),
    fs w' !! path_str output_path = Some (PdfFile dst) ∧
    dst !! 0 = Some dp ∧
    (rect_width dp == 515.905517578125)%Q ∧ ¬ (rect_width dp == B5_W_PT)%Q ∧
    (rect_height dp == 728.50396728515625)%Q ∧ ¬ (rect_height dp == B5_H_PT)%Q.
Proof.
  split; [vm_compute; reflexivity|].
  eexists _, _. split; [vm_compute; reflexivity|]. split; [reflexivity|].
  split_and!; [reflexivity| |reflexivity|];
    intros Heq; vm_compute in Heq; discriminate Heq.
Qed.

(** C4, amended: when the resize operation succeeds, the output document has
    one page for each input page, at least one, and every page of it has the
    same size whatever the size of the input page it comes from: the
    single-precision roundings of the requested [Tw] and [Th] (182 mm and
    257 mm at 72/25.4 points per millimetre), 515.905517578125 by
    728.50396728515625 points. *)
Theorem C4_output_pages_share_b5_size (input_path output_path : Path)
    (w w' : World) :
  resize_pdf_to_b5 input_path output_path w = (Ok tt, w') →
  (B5_W_PT == 182 * (72 / 25.4))%Q ∧ (B5_H_PT == 257 * (72 / 25.4))%Q ∧
  (f32 B5_W_PT == 515.905517578125)%Q ∧ (f32 B5_H_PT == 728.50396728515625)%Q ∧
  ∃ src dst : Document,
    fs w !! path_str input_path = Some (PdfFile src) ∧
    fs w' !! path_str output_path = Some (PdfFile dst) ∧
    length dst = length src ∧ dst ≠ [] ∧
    ∀ dp : Page, dp ∈ dst →
      rect_width dp = f32 B5_W_PT ∧ rect_height dp = f32 B5_H_PT.
Proof.
  intros (src & dst & Hsrc & Hloop & Hne & Hfs)%resize_pdf_to_b5_ok.
  split; [reflexivity|]. split; [reflexivity|].
  split; [apply f32_B5_W_PT|]. split; [apply f32_B5_H_PT|].
  apply resize_pages_ok in Hloop as (new & -> & Hlen & Hnew).
  exists src, new.
  split_and!; [done|rewrite Hfs; apply lookup_insert_eq|done|done|].
  intros dp (n & Hn)%list_elem_of_lookup.
  destruct (src !! n) as [sp|] eqn:Hsp.
  - destruct (Hnew n sp Hsp) as (dest & _ & Hn').
    rewrite Hn in Hn'. injection Hn' as ->. apply fitted_page_rect.
  - apply lookup_ge_None in Hsp. apply lookup_lt_Some in Hn. simpl in *. lia.
Qed.

Lemma C4_output_pages_share_b5_size_witness :
  let input_path := path_of_str "/docs/report.pdf" in
  let output_path := path_of_str "/docs/report_B5.pdf" in
  let w' := (resize_pdf_to_b5 input_path output_path sample_world).2 in
  resize_pdf_to_b5 input_path output_path sample_world = (Ok tt, w') ∧
  ∃ src dst : Document,
    fs sample_world !! path_str input_path = Some (PdfFile src) ∧
    fs w' !! path_str output_path = Some (PdfFile dst) ∧
    length dst = length src ∧ dst ≠ [] ∧
    ∀ dp : Page, dp ∈ dst →
      rect_width dp = f32 B5_W_PT ∧ rect_height dp = f32 B5_H_PT.
Proof.
  intros input_path output_path w'.
  assert (resize_pdf_to_b5 input_path output_path sample_world = (Ok tt, w'))
    as Hrun by (vm_compute; reflexivity).
  split; [exact Hrun|].
  exact (proj2 (proj2 (proj2 (proj2
    (C4_output_pages_share_b5_size input_path output_path sample_world w' Hrun))))).
Defined.

(** ** Division by zero *)



(** The sides the library reports for a page are positive, and those of an
    empty box are 612 and 792. *)
Lemma rect_sides_positive (sp : Page) :
  (0 < rect_width sp)%Q ∧ (0 < rect_height sp)%Q.
Proof.
  unfold rect_width, rect_height, box_empty.
  destruct (Qle_bool (box_width sp) 0) eqn:EW; [done|].
  destruct (Qle_bool (box_height sp) 0) eqn:EH; [done|]. simpl.
  split; apply Qnot_le_lt; intros Hle%Qle_bool_iff; congruence.
Qed.






(** ** Strings and paths *)

Example path_of_str_normalises :
  path_of_str "/home//u/./report.v2.PDF"
    = mkPath "/" ["home"; "u"; "report.v2.PDF"].
Proof. reflexivity. Qed.

Example path_parts_of_a_name :
  let p := path_of_str "/home/u/report.v2.PDF" in
  (path_name p, path_stem p, path_suffix p, str_lower (path_suffix p),
   path_str (path_parent p))
  = ("report.v2.PDF", "report.v2", ".PDF", ".pdf", "/home/u").
Proof. reflexivity. Qed.

Example path_edge_cases :
  (path_suffix (path_of_str ".pdf"), path_suffix (path_of_str "a."),
   path_str (path_of_str ""), path_str (path_of_str "//a/b"),
   path_str (path_of_str "///a/b/"), str_strip "  a b.pdf  ")
  = ("", "", ".", "//a/b", "/a/b", "a b.pdf").
Proof. reflexivity. Qed.

Lemma str_app_cons (c : ascii) (s t : string) :
  String c s +:+ t = String c (s +:+ t).
Proof. reflexivity. Qed.

Lemma str_app_nil_l (s : string) : "" +:+ s = s.
Proof. reflexivity. Qed.

Lemma str_length_app (s t : string) :
  String.length (s +:+ t) = String.length s + String.length t.
Proof.
  induction s as [|c s IH]; [done|]. rewrite str_app_cons. simpl. by rewrite IH.
Qed.

Lemma str_contains_app (c : ascii) (s t : string) :
  str_contains c (s +:+ t) = str_contains c s || str_contains c t.
Proof.
  induction s as [|a s IH]; [done|]. rewrite str_app_cons. simpl.
  rewrite IH. by rewrite orb_assoc.
Qed.

Lemma str_contains_take (c : ascii) (n : nat) (s : string) :
  str_contains c s = false → str_contains c (str_take n s) = false.
Proof.
  revert s. induction n as [|n IH]; intros [|a s]; simpl; try done.
  intros [Ha Hs]%orb_false_iff. rewrite Ha. simpl. by apply IH.
Qed.

(** Splitting yields separator-free pieces. *)
Lemma str_split_pieces (c : ascii) (s : string) :
  Forall (λ x, str_contains c x = false) (str_split c s).
Proof.
  induction s as [|a s IH]; simpl; [by repeat constructor|].
  case_decide as Ha; [by constructor|].
  destruct (str_split c s) as [|x xs].
  - constructor; [|done]. simpl. by rewrite bool_decide_eq_false_2.
  - apply Forall_cons in IH as [Hx Hxs]. constructor; [|done].
    simpl. rewrite Hx. by rewrite bool_decide_eq_false_2.
Qed.

(** A separator-free string splits into itself; a separator after such a
    string starts a new piece. *)
Lemma str_split_piece (c : ascii) (x : string) :
  str_contains c x = false → str_split c x = [x].
Proof.
  induction x as [|a x IH]; [done|]. simpl.
  intros [Ha Hx]%orb_false_iff. apply bool_decide_eq_false in Ha.
  rewrite decide_False by done. by rewrite IH.
Qed.

Lemma str_split_app_sep (c : ascii) (x r : string) :
  str_contains c x = false →
  str_split c (x +:+ String c r) = x :: str_split c r.
Proof.
  induction x as [|a x IH].
  - intros _. rewrite str_app_nil_l. simpl. by rewrite decide_True.
  - rewrite str_app_cons. simpl.
    intros [Ha Hx]%orb_false_iff. apply bool_decide_eq_false in Ha.
    rewrite decide_False by done. by rewrite IH.
Qed.

Lemma str_split_join (c : ascii) (l : list string) :
  l ≠ [] → Forall (λ x, str_contains c x = false) l →
  str_split c (str_join c l) = l.
Proof.
  induction l as [|x l IH]; [done|]. intros _ [Hx Hl]%Forall_cons.
  destruct l as [|y l].
  - by apply str_split_piece.
  - change (str_join c (x :: y :: l)) with (x +:+ String c (str_join c (y :: l))).
    rewrite str_split_app_sep by done. f_equal. by apply IH.
Qed.

Lemma filter_all {A : Type} (P : A → Prop) `{∀ x, Decision (P x)} (l : list A) :
  Forall P l → filter P l = l.
Proof.
  induction 1 as [|x l Hx Hl IH]; [done|].
  rewrite filter_cons, decide_True by done. by rewrite IH.
Qed.

(** [Path(s)] is well formed. *)
Lemma path_of_str_wf (s : string) : path_wf (path_of_str s).
Proof.
  unfold path_of_str. destruct (splitroot s) as [rt rel] eqn:Hsplit.
  split; simpl.
  - unfold splitroot in Hsplit.
    repeat case_match; injection Hsplit as <- <-; auto.
  - apply Forall_forall. intros x [[Hne Hdot] Hx]%list_elem_of_filter.
    split_and!; [done..|].
    pose proof (str_split_pieces sep rel) as Hall.
    rewrite Forall_forall in Hall. by apply Hall.
Qed.

(** The first character of a joined component list is not a separator. *)
Lemma str_join_head (x : string) (l : list string) :
  component x →
  ∃ (c : ascii) (r : string), str_join sep (x :: l) = String c r ∧ c ≠ sep.
Proof.
  intros (Hne & _ & Hx). destruct x as [|c x]; [done|].
  simpl in Hx. apply orb_false_iff in Hx as [Hc%bool_decide_eq_false _].
  destruct l as [|y l].
  - by exists c, x.
  - exists c, (x +:+ String sep (str_join sep (y :: l))). by split.
Qed.

(** Parsing the string of a well-formed path gives the path back. *)
Lemma path_of_str_str (p : Path) : path_wf p → path_of_str (path_str p) = p.
Proof.
  destruct p as [rt tl]. intros [Hroot Htl]. simpl in Hroot, Htl.
  destruct tl as [|x l].
  { by destruct Hroot as [->|[->| ->]]. }
  apply Forall_cons in Htl as Htl'. destruct Htl' as [Hx _].
  destruct (str_join_head x l Hx) as (c & r & Hjoin & Hc).
  assert (filter (λ y, y ≠ "" ∧ y ≠ ".") (str_split sep (String c r)) = x :: l)
    as Hparts.
  { rewrite <- Hjoin, str_split_join; [|done|].
    - apply filter_all. eapply Forall_impl; [exact Htl|]. by intros ? (? & ? & ?).
    - eapply Forall_impl; [exact Htl|]. by intros ? (? & ? & ?). }
  unfold path_str, path_of_str, splitroot. cbn [root tail]. rewrite Hjoin.
  destruct Hroot as [->|[->| ->]]; simpl;
    rewrite (bool_decide_eq_false_2 _ Hc); simpl; f_equal; exact Hparts.
Qed.

Lemma path_str_roundtrip (s : string) :
  path_of_str (path_str (path_of_str s)) = path_of_str s.
Proof. apply path_of_str_str, path_of_str_wf. Qed.

(** The string of a path is never empty. *)
Lemma path_str_nonempty (p : Path) : path_str p ≠ "".
Proof. unfold path_str. by destruct (root p +:+ str_join sep (tail p)). Qed.

(** The name and the stem of a well-formed path hold no separator. *)
Lemma path_name_sep_free (p : Path) :
  path_wf p → str_contains sep (path_name p) = false.
Proof.
  intros [_ Htl]. unfold path_name.
  destruct (last (tail p)) as [x|] eqn:Hlast; [|done]. simpl.
  apply last_Some_elem_of in Hlast.
  rewrite Forall_forall in Htl. by destruct (Htl x Hlast) as (_ & _ & ?).
Qed.

Lemma path_stem_sep_free (p : Path) :
  path_wf p → str_contains sep (path_stem p) = false.
Proof.
  intros Hwf. unfold path_stem.
  case_match; [apply str_contains_take|]; by apply path_name_sep_free.
Qed.

(** A path with a suffix has a name. *)
Lemma path_suffix_name (p : Path) : path_suffix p ≠ "" → path_name p ≠ "".
Proof.
  unfold path_suffix. intros Hsuf Hname. rewrite Hname in Hsuf. by simpl in Hsuf.
Qed.

Lemma pdf_suffix_name (p : Path) :
  str_lower (path_suffix p) = ".pdf" → path_name p ≠ "".
Proof.
  intros Hpdf. apply path_suffix_name. intros Hsuf. by rewrite Hsuf in Hpdf.
Qed.

(** The derived default name is a valid file name. *)
Lemma default_name_valid (stem label : string) :
  str_contains sep stem = false → str_contains sep label = false →
  let name := stem +:+ "_" +:+ label +:+ ".pdf" in
  name ≠ "" ∧ name ≠ "." ∧ str_contains sep name = false.
Proof.
  intros Hstem Hlabel name.
  assert (2 ≤ String.length name) as Hlen.
  { subst name. rewrite !str_length_app. simpl. lia. }
  split_and!.
  - intros Heq. rewrite Heq in Hlen. simpl in Hlen. lia.
  - intros Heq. rewrite Heq in Hlen. simpl in Hlen. lia.
  - subst name. rewrite !str_contains_app, Hstem, Hlabel. done.
Qed.

Lemma path_with_name_ok (p : Path) (name : string) :
  path_name p ≠ "" → name ≠ "" → name ≠ "." → str_contains sep name = false →
  path_with_name p name = Ok (mkPath (root p) (removelast (tail p) ++ [name])).
Proof.
  intros Hp Hne Hdot Hsep. unfold path_with_name.
  rewrite decide_False by done.
  by rewrite !bool_decide_eq_false_2, Hsep by done.
Qed.

Lemma path_parent_snoc (r : string) (l : list string) (n : string) :
  path_parent (mkPath r (l ++ [n])) = mkPath r l.
Proof.
  unfold path_parent. cbn [tail root].
  destruct (l ++ [n]) as [|y t] eqn:Happ; [by destruct l|].
  rewrite <- Happ. by rewrite removelast_last.
Qed.

(** Whatever name replaces the last component, the parent stays. *)
Lemma path_with_name_parent (p out : Path) (name : string) :
  path_with_name p name = Ok out →
  path_parent out = path_parent p ∧ path_name out = name.
Proof.
  unfold path_with_name. case_decide as Hname; [done|].
  case_match; [done|]. intros [= <-].
  rewrite path_parent_snoc. split.
  - unfold path_parent. destruct (tail p) eqn:Htl; [|done].
    unfold path_name in Hname. by rewrite Htl in Hname.
  - unfold path_name. cbn [tail]. by rewrite last_snoc.
Qed.

(** The events of the resize operation: its own entry and nothing else. *)
Lemma resize_pdf_to_b5_events (input_path output_path : Path) (w : World) :
  events (resize_pdf_to_b5 input_path output_path w).2
    = events w ++ [ResizeCall (path_str input_path) (path_str output_path)].
Proof.
  rewrite resize_pdf_to_b5_unfold. cbv zeta.
  destruct (fs w !! path_str input_path) as [[src|]|]; [|done..].
  destruct (resize_pages [] src 0 src) as [dst|e]; [|done].
  unfold fitz_save. destruct dst as [|dp dst]; [done|].
  by destruct (save_fault _ _ _).
Qed.

(** ** The shell *)

Section Shell.
Import MainWindow.

Lemma set_input_file_input (self : t) (p : Path) :
  input_edit (set_input_file self p) = path_str p.
Proof.
  unfold set_input_file, refresh_default_output. simpl.
  rewrite decide_False by apply path_str_nonempty.
  by case_decide.
Qed.

(** C5: for every selected input path the shell derives the default output
    name as the input's stem, an underscore, the size label and [".pdf"]: it
    fills the empty output-name field with it on selection (a name already in
    the field is kept) and [run] falls back to it when the field is blank; and
    every output path [run] resolves has the parent directory of the input
    path. *)
Theorem C5_default_output_name (self : t) (s : string) :
  let p := path_of_str s in
  let default := path_stem p +:+ "_" +:+ "B5" +:+ ".pdf" in
  let self' := set_input_file self p in
  path_of_str (input_edit self') = p ∧
  (output_name_edit self = "" → output_name_edit self' = default) ∧
  (output_name_edit self ≠ "" → output_name_edit self' = output_name_edit self) ∧
  (∀ st : t,
     str_strip (output_name_edit st) = "" →
     str_lower (path_suffix p) = ".pdf" →
     resolve_output st p
       = Ok (mkPath (root p) (removelast (tail p) ++ [default]))) ∧
  (∀ (st : t) (out : Path),
     resolve_output st p = Ok out → path_parent out = path_parent p).
Proof.
  intros p default self'. split_and!.
  - subst self'. rewrite set_input_file_input. apply path_str_roundtrip.
  - intros Hempty. subst self'.
    unfold set_input_file, refresh_default_output. simpl.
    rewrite decide_False by apply path_str_nonempty.
    rewrite Hempty, decide_True by done. simpl.
    subst p. by rewrite path_str_roundtrip.
  - intros Hkept. subst self'.
    unfold set_input_file, refresh_default_output. simpl.
    rewrite decide_False by apply path_str_nonempty.
    by rewrite decide_False by done.
  - intros st Hblank Hpdf. unfold resolve_output. simpl. rewrite Hblank.
    destruct (default_name_valid (path_stem p) "B5") as (? & ? & ?);
      [by apply path_stem_sep_free, path_of_str_wf|done|].
    apply path_with_name_ok; [by apply pdf_suffix_name|done..].
  - intros st out Hout. unfold resolve_output in Hout. simpl in Hout.
    by apply path_with_name_parent in Hout as [? _].
Qed.

Lemma C5_default_output_name_witness :
  let self' := set_input_file init (path_of_str "/docs/report.pdf") in
  output_name_edit init = "" ∧
  str_strip (output_name_edit init) = "" ∧
  str_lower (path_suffix (path_of_str "/docs/report.pdf")) = ".pdf" ∧
  output_name_edit self' = "report_B5.pdf" ∧
  resolve_output init (path_of_str "/docs/report.pdf")
    = Ok (path_of_str "/docs/report_B5.pdf").
Proof.
  destruct (C5_default_output_name init "/docs/report.pdf")
    as (_ & Hfill & _ & Hblank & _).
  split; [reflexivity|]. split; [reflexivity|]. split; [reflexivity|].
  split.
  - exact (Hfill eq_refl).
  - exact (Hblank init eq_refl eq_refl).
Defined.

(** C6: when no input path is set, or the set path does not exist, or its
    extension is not [".pdf"] up to case, [run] shows a validation message
    and returns; the resize operation is not invoked and no file is
    written. *)
Theorem C6_invalid_input_rejected (self : t) (w : World) :
  let in_path := path_of_str (input_edit self) in
  input_edit self = "" ∨ path_exists in_path w = false
    ∨ str_lower (path_suffix in_path) ≠ ".pdf" →
  ∃ m : Event,
    (m = Warning "エラー" "入力PDFを指定してください。"
     ∨ m = Critical "エラー" "有効なPDFファイルを指定してください。") ∧
    run self w = (Ok tt, emit m w) ∧
    events (run self w).2 = events w ++ [m] ∧
    fs (run self w).2 = fs w.
Proof.
  intros in_path Hbad. unfold run, tell.
  destruct (decide (input_edit self = "")) as [Hempty|Hset].
  { eexists. split; [by left|]. done. }
  fold in_path.
  destruct Hbad as [?|[Hmissing|Hext]]; [done| |].
  - rewrite Hmissing. simpl. eexists. split; [by right|]. done.
  - rewrite (bool_decide_eq_false_2 _ Hext), orb_true_r.
    eexists. split; [by right|]. done.
Qed.

Lemma C6_invalid_input_rejected_witness :
  let self := set_input_file init (path_of_str "/docs/missing.pdf") in
  path_exists (path_of_str (input_edit self)) sample_world = false ∧
  ∃ m : Event,
    (m = Warning "エラー" "入力PDFを指定してください。"
     ∨ m = Critical "エラー" "有効なPDFファイルを指定してください。") ∧
    run self sample_world = (Ok tt, emit m sample_world) ∧
    events (run self sample_world).2 = events sample_world ++ [m] ∧
    fs (run self sample_world).2 = fs sample_world.
Proof.
  intros self.
  assert (path_exists (path_of_str (input_edit self)) sample_world = false)
    as Hmissing by (vm_compute; reflexivity).
  split; [exact Hmissing|].
  exact (C6_invalid_input_rejected self sample_world (or_intror (or_introl Hmissing))).
Defined.
End Shell.

Section ShellRun.
Import MainWindow.

(** [run] once the input is accepted and the output path resolved. *)
Lemma run_accepted (self : t) (w : World) (out : Path) :
  let in_path := path_of_str (input_edit self) in
  input_edit self ≠ "" →
  path_exists in_path w = true →
  str_lower (path_suffix in_path) = ".pdf" →
  resolve_output self in_path = Ok out →
  run self w =
    if path_exists out w then
      let q := path_name out +:+ " を上書きしますか？" in
      let w1 := emit (Question "確認" q) w in
      if decide (answer w q = Yes) then convert in_path out w1 else (Ok tt, w1)
    else convert in_path out w.
Proof.
  intros in_path Hset Hexists Hpdf Hout. unfold run.
  rewrite decide_False by done. fold in_path.
  rewrite Hexists, (bool_decide_eq_true_2 _ Hpdf). simpl.
  by rewrite Hout.
Qed.

(** The try/except around the call: one message after the call's own
    events, and a normal return. *)
Lemma convert_events (in_path out_path : Path) (w : World) :
  ∃ m : Event,
    events (convert in_path out_path w).2
      = events w ++ [ResizeCall (path_str in_path) (path_str out_path); m].
Proof.
  unfold convert.
  pose proof (resize_pdf_to_b5_events in_path out_path w) as Hev.
  destruct (resize_pdf_to_b5 in_path out_path w) as [[[]|e] w'];
    simpl in *; rewrite Hev, <- app_assoc; eauto.
Qed.

(** C7: when the resolved output path already exists, [run] asks for
    confirmation before anything else, in particular before invoking the
    resize operation; when the user does not answer yes, [run] returns
    without invoking it: nothing follows the question and no file changes. *)
Theorem C7_overwrite_needs_consent (self : t) (w : World) (out : Path) :
  let in_path := path_of_str (input_edit self) in
  let q := path_name out +:+ " を上書きしますか？" in
  input_edit self ≠ "" →
  path_exists in_path w = true →
  str_lower (path_suffix in_path) = ".pdf" →
  resolve_output self in_path = Ok out →
  path_exists out w = true →
  ∃ rest : list Event,
    events (run self w).2 = events w ++ Question "確認" q :: rest ∧
    (answer w q = Yes →
       ∃ m, rest = [ResizeCall (path_str in_path) (path_str out); m]) ∧
    (answer w q ≠ Yes →
       rest = [] ∧ (run self w).1 = Ok tt ∧ fs (run self w).2 = fs w).
Proof.
  intros in_path q Hset Hexists Hpdf Hout Hclash.
  rewrite (run_accepted self w out) by done. rewrite Hclash. cbv zeta.
  fold in_path q.
  destruct (decide (answer w q = Yes)) as [Hyes|Hno].
  - destruct (convert_events in_path out (emit (Question "確認" q) w))
      as [m Hev].
    exists [ResizeCall (path_str in_path) (path_str out); m].
    rewrite Hev. simpl. rewrite <- app_assoc. split_and!; [done|eauto|done].
  - exists []. by split_and!.
Qed.

Lemma C7_overwrite_needs_consent_witness :
  let self := edit_output_name
                (set_input_file init (path_of_str "/docs/report.pdf"))
                "flat.pdf" in
  let out := path_of_str "/docs/flat.pdf" in
  let q := path_name out +:+ " を上書きしますか？" in
  (input_edit self ≠ "" ∧
   path_exists (path_of_str (input_edit self)) sample_world = true ∧
   str_lower (path_suffix (path_of_str (input_edit self))) = ".pdf" ∧
   resolve_output self (path_of_str (input_edit self)) = Ok out ∧
   path_exists out sample_world = true) ∧
  ∃ rest : list Event,
    events (run self sample_world).2
      = events sample_world ++ Question "確認" q :: rest ∧
    (answer sample_world q = Yes →
       ∃ m, rest = [ResizeCall (path_str (path_of_str (input_edit self)))
                               (path_str out); m]) ∧
    (answer sample_world q ≠ Yes →
       rest = [] ∧ (run self sample_world).1 = Ok tt
       ∧ fs (run self sample_world).2 = fs sample_world).
Proof.
  intros self out q.
  assert (input_edit self ≠ "") as H1 by (vm_compute; discriminate).
  assert (path_exists (path_of_str (input_edit self)) sample_world = true)
    as H2 by (vm_compute; reflexivity).
  assert (str_lower (path_suffix (path_of_str (input_edit self))) = ".pdf")
    as H3 by (vm_compute; reflexivity).
  assert (resolve_output self (path_of_str (input_edit self)) = Ok out)
    as H4 by (vm_compute; reflexivity).
  assert (path_exists out sample_world = true)
    as H5 by (vm_compute; reflexivity).
  split; [by split_and!|].
  exact (C7_overwrite_needs_consent self sample_world out H1 H2 H3 H4 H5).
Defined.

(** C8: every exception the resize operation raises is caught at the call:
    [run] shows a failure message that ends with the text of the exception
    and returns normally, in the world the failed operation left. *)
Theorem C8_failure_reported (self : t) (w w1 : World) (out : Path) (e : exn) :
  let in_path := path_of_str (input_edit self) in
  let q := path_name out +:+ " を上書きしますか？" in
  let w0 := if path_exists out w then emit (Question "確認" q) w else w in
  input_edit self ≠ "" →
  path_exists in_path w = true →
  str_lower (path_suffix in_path) = ".pdf" →
  resolve_output self in_path = Ok out →
  (path_exists out w = true → answer w q = Yes) →
  resize_pdf_to_b5 in_path out w0 = (Raise e, w1) →
  run self w =
    (Ok tt,
     emit (Critical "失敗" ("出力に失敗しました。" +:+ nl +:+ exn_str e)) w1).
Proof.
  intros in_path q w0 Hset Hexists Hpdf Hout Hyes Hfail.
  rewrite (run_accepted self w out) by done. cbv zeta. fold in_path q.
  subst w0. destruct (path_exists out w).
  - rewrite decide_True by auto. unfold convert. by rewrite Hfail.
  - unfold convert. by rewrite Hfail.
Qed.

Lemma C8_failure_reported_witness :
  let self := set_input_file init (path_of_str "/docs/notes.pdf") in
  let in_path := path_of_str (input_edit self) in
  let out := path_of_str "/docs/notes_B5.pdf" in
  let e := FileDataError "Failed to open file /docs/notes.pdf" in
  let w1 := emit (ResizeCall "/docs/notes.pdf" "/docs/notes_B5.pdf") sample_world in
  (input_edit self ≠ "" ∧
   path_exists in_path sample_world = true ∧
   str_lower (path_suffix in_path) = ".pdf" ∧
   resolve_output self in_path = Ok out ∧
   path_exists out sample_world = false ∧
   resize_pdf_to_b5 in_path out sample_world = (Raise e, w1)) ∧
  run self sample_world =
    (Ok tt,
     emit (Critical "失敗" ("出力に失敗しました。" +:+ nl +:+ exn_str e)) w1).
Proof.
  intros self in_path out e w1.
  assert (input_edit self ≠ "") as H1 by (vm_compute; discriminate).
  assert (path_exists in_path sample_world = true)
    as H2 by (vm_compute; reflexivity).
  assert (str_lower (path_suffix in_path) = ".pdf")
    as H3 by (vm_compute; reflexivity).
  assert (resolve_output self in_path = Ok out)
    as H4 by (vm_compute; reflexivity).
  assert (path_exists out sample_world = false)
    as H5 by (vm_compute; reflexivity).
  assert (resize_pdf_to_b5 in_path out sample_world = (Raise e, w1))
    as H6 by (vm_compute; reflexivity).
  split; [by split_and!|].
  apply (C8_failure_reported self sample_world w1 out e H1 H2 H3 H4).
  - intros Hclash. rewrite H5 in Hclash. discriminate Hclash.
  - rewrite H5. exact H6.
Defined.
End ShellRun.

(** A complete run on the sample world: the report is converted and the user
    is told where it was saved. *)
Example run_sample_report :
  let self := MainWindow.set_input_file MainWindow.init
                (path_of_str "/docs/report.pdf") in
  (MainWindow.run self sample_world).1 = Ok tt ∧
  events (MainWindow.run self sample_world).2
    = [ResizeCall "/docs/report.pdf" "/docs/report_B5.pdf";
       Information "完了" ("保存しました:" +:+ nl +:+ "/docs/report_B5.pdf")].
Proof. split; vm_compute; reflexivity. Qed.


(** * Further properties of the code *)

(** ** More on the fit geometry *)

Lemma B5_W_PT_pos : (0 < B5_W_PT)%Q.
Proof. reflexivity. Qed.

Lemma B5_H_PT_pos : (0 < B5_H_PT)%Q.
Proof. reflexivity. Qed.

(** X1: whenever the geometry succeeds, both sides of the target rectangle are
    the page's sides times one and the same scale, so the rectangle has the
    proportions of the source page. *)
Theorem fit_rect_keeps_proportion (W H : Q) (r : Rect) :
  fit_rect W H = Ok r →
  ∃ s : Q,
    fit_scale W H = Ok s ∧
    (x1 r - x0 r == W * s)%Q ∧ (y1 r - y0 r == H * s)%Q ∧
    ((x1 r - x0 r) * H == (y1 r - y0 r) * W)%Q.
Proof.
  unfold fit_rect. destruct (fit_scale W H) as [s|e]; [|done].
  simpl. intros [= <-]. exists s. cbn [x0 y0 x1 y1].
  split_and!; [done|ring..].
Qed.

Lemma fit_rect_keeps_proportion_witness :
  ∃ r : Rect,
    fit_rect 792 612 = Ok r ∧
    ∃ s : Q,
      fit_scale 792 612 = Ok s ∧
      (x1 r - x0 r == 792 * s)%Q ∧ (y1 r - y0 r == 612 * s)%Q ∧
      ((x1 r - x0 r) * 612 == (y1 r - y0 r) * 792)%Q.
Proof.
  eexists. split; [reflexivity|].
  apply (fit_rect_keeps_proportion 792 612). reflexivity.
Defined.

Section LimitingSide.
Local Open Scope Q_scope.
Variables W H : Q.
Hypothesis W_pos : 0 < W.
Hypothesis H_pos : 0 < H.

(** The width fills the target as soon as the page is relatively at least as
    wide as the target, the height as soon as it is relatively at least as
    high. *)
Lemma wide_page_fills_width (s := py_min (B5_W_PT / W) (B5_H_PT / H)) :
  H * B5_W_PT <= W * B5_H_PT → W * s == B5_W_PT.
Proof.
  intros Hwide.
  destruct (min_ratio_fits B5_W_PT B5_H_PT W H W_pos H_pos) as (Hw & Hh & [Heq|Heq]);
    fold s in Hw, Hh, Heq; [done|].
  apply Qle_antisym; [done|].
  apply (Qmult_le_l _ _ H); [done|].
  apply Qle_trans with (W * B5_H_PT); [done|].
  rewrite <- Heq. apply Qle_lteq. right. ring.
Qed.

Lemma high_page_fills_height (s := py_min (B5_W_PT / W) (B5_H_PT / H)) :
  W * B5_H_PT <= H * B5_W_PT → H * s == B5_H_PT.
Proof.
  intros Hhigh.
  destruct (min_ratio_fits B5_W_PT B5_H_PT W H W_pos H_pos) as (Hw & Hh & [Heq|Heq]);
    fold s in Hw, Hh, Heq; [|done].
  apply Qle_antisym; [done|].
  apply (Qmult_le_l _ _ W); [done|].
  apply Qle_trans with (H * B5_W_PT); [done|].
  rewrite <- Heq. apply Qle_lteq. right. ring.
Qed.

Lemma scale_pos (s := py_min (B5_W_PT / W) (B5_H_PT / H)) : 0 < s.
Proof.
  subst s. rewrite py_min_Qmin. apply Q.min_glb_lt.
  - apply Qlt_shift_div_l; [done|]. rewrite Qmult_0_l. apply B5_W_PT_pos.
  - apply Qlt_shift_div_l; [done|]. rewrite Qmult_0_l. apply B5_H_PT_pos.
Qed.
End LimitingSide.

Lemma Qhalf_zero (a b : Q) : (b == a)%Q → ((a - b) / 2 == 0)%Q.
Proof. intros ->. rewrite Qdiv_2_half. ring. Qed.

(** X2: for a page with positive sides, the side that limits the scale fills
    the target exactly.  A page relatively at least as wide as B5 spans the
    whole target width, with no horizontal margin; a page relatively at least
    as high spans the whole height; so one of the two offsets is always
    zero. *)
Theorem fit_rect_limiting_side (W H : Q) :
  (0 < W)%Q → (0 < H)%Q →
  ∃ r : Rect,
    fit_rect W H = Ok r ∧
    ((H * B5_W_PT <= W * B5_H_PT)%Q → (x0 r == 0)%Q ∧ (x1 r == B5_W_PT)%Q) ∧
    ((W * B5_H_PT <= H * B5_W_PT)%Q → (y0 r == 0)%Q ∧ (y1 r == B5_H_PT)%Q) ∧
    ((x0 r == 0)%Q ∨ (y0 r == 0)%Q).
Proof.
  intros HW HH. eexists. split; [by apply fit_rect_pos|].
  cbn [x0 y0 x1 y1].
  assert (∀ T d : Q, (d == T)%Q → ((T - d) / 2 == 0)%Q ∧ ((T - d) / 2 + d == T)%Q)
    as Hfill.
  { intros T d Hd. rewrite (Qhalf_zero T d Hd). split; [reflexivity|].
    rewrite Hd. ring. }
  split_and!.
  - intros Hwide. by apply Hfill, wide_page_fills_width.
  - intros Hhigh. by apply Hfill, high_page_fills_height.
  - destruct (Qlt_le_dec (W * B5_H_PT) (H * B5_W_PT)) as [Hlt|Hle].
    + right. apply Qhalf_zero, high_page_fills_height; [done..|].
      by apply Qlt_le_weak.
    + left. by apply Qhalf_zero, wide_page_fills_width.
Qed.

Lemma fit_rect_limiting_side_witness :
  (0 < 792)%Q ∧ (0 < 612)%Q ∧
  ∃ r : Rect,
    fit_rect 792 612 = Ok r ∧
    ((612 * B5_W_PT <= 792 * B5_H_PT)%Q → (x0 r == 0)%Q ∧ (x1 r == B5_W_PT)%Q) ∧
    ((792 * B5_H_PT <= 612 * B5_W_PT)%Q → (y0 r == 0)%Q ∧ (y1 r == B5_H_PT)%Q) ∧
    ((x0 r == 0)%Q ∨ (y0 r == 0)%Q).
Proof.
  split; [reflexivity|]. split; [reflexivity|].
  apply (fit_rect_limiting_side 792 612); reflexivity.
Defined.

(** X3: for a page with positive sides the scale is positive and the target
    rectangle is not empty: its right edge lies right of its left edge and its
    bottom edge below its top edge. *)
Theorem fit_rect_not_empty (W H : Q) :
  (0 < W)%Q → (0 < H)%Q →
  ∃ (s : Q) (r : Rect),
    fit_scale W H = Ok s ∧ fit_rect W H = Ok r ∧
    (0 < s)%Q ∧ (x0 r < x1 r)%Q ∧ (y0 r < y1 r)%Q.
Proof.
  intros HW HH. eexists _, _.
  split; [by apply fit_scale_pos|]. split; [by apply fit_rect_pos|].
  pose proof (scale_pos W H HW HH) as Hs. cbv zeta in Hs.
  cbn [x0 y0 x1 y1]. split; [done|].
  assert (∀ a d : Q, (0 < d)%Q → (a < a + d)%Q) as Hgrow by (intros; lra).
  split; apply Hgrow, Qmult_lt_0_compat; done.
Qed.

Lemma fit_rect_not_empty_witness :
  (0 < 595.276)%Q ∧ (0 < 841.89)%Q ∧
  ∃ (s : Q) (r : Rect),
    fit_scale 595.276 841.89 = Ok s ∧ fit_rect 595.276 841.89 = Ok r ∧
    (0 < s)%Q ∧ (x0 r < x1 r)%Q ∧ (y0 r < y1 r)%Q.
Proof.
  split; [reflexivity|]. split; [reflexivity|].
  apply (fit_rect_not_empty 595.276 841.89); reflexivity.
Defined.

(** X4: a page with positive sides is enlarged or kept (scale at least 1)
    exactly when neither side exceeds the target, and reduced or kept (scale at
    most 1) exactly when one side reaches or exceeds it. *)
Theorem fit_scale_enlarges_small_pages (W H : Q) :
  (0 < W)%Q → (0 < H)%Q →
  ∃ s : Q,
    fit_scale W H = Ok s ∧
    ((1 <= s)%Q ↔ (W <= B5_W_PT)%Q ∧ (H <= B5_H_PT)%Q) ∧
    ((s <= 1)%Q ↔ (B5_W_PT <= W)%Q ∨ (B5_H_PT <= H)%Q).
Proof.
  intros HW HH. eexists. split; [by apply fit_scale_pos|].
  rewrite py_min_Qmin.
  assert (∀ T L : Q, (0 < L)%Q → ((1 <= T / L)%Q ↔ (L <= T)%Q)) as Hge.
  { intros T L HL. split; intros Hle.
    - apply (Qmult_le_r _ _ L) in Hle; [|done].
      rewrite Qmult_1_l in Hle. unfold Qdiv in Hle.
      rewrite <- Qmult_assoc, (Qmult_comm (/ L)), Qmult_inv_r, Qmult_1_r in Hle;
        [done|lra].
    - apply Qle_shift_div_l; [done|]. by rewrite Qmult_1_l. }
  assert (∀ T L : Q, (0 < L)%Q → ((T / L <= 1)%Q ↔ (T <= L)%Q)) as Hle.
  { intros T L HL. split; intros Hl.
    - apply (Qmult_le_r _ _ L) in Hl; [|done].
      rewrite Qmult_1_l in Hl. unfold Qdiv in Hl.
      rewrite <- Qmult_assoc, (Qmult_comm (/ L)), Qmult_inv_r, Qmult_1_r in Hl;
        [done|lra].
    - apply Qle_shift_div_r; [done|]. by rewrite Qmult_1_l. }
  split.
  - rewrite Q.min_glb_iff. by rewrite !Hge.
  - rewrite Q.min_le_iff. by rewrite !Hle.
Qed.

Lemma fit_scale_enlarges_small_pages_witness :
  (0 < 300)%Q ∧ (0 < 400)%Q ∧
  ∃ s : Q,
    fit_scale 300 400 = Ok s ∧
    ((1 <= s)%Q ↔ (300 <= B5_W_PT)%Q ∧ (400 <= B5_H_PT)%Q) ∧
    ((s <= 1)%Q ↔ (B5_W_PT <= 300)%Q ∨ (B5_H_PT <= 400)%Q).
Proof.
  split; [reflexivity|]. split; [reflexivity|].
  apply (fit_scale_enlarges_small_pages 300 400); reflexivity.
Defined.

(** ** More on the resize operation *)

(** For positive sides the target rectangle is not empty in the library's
    sense either. *)
Lemma fit_rect_is_not_empty (W H : Q) :
  (0 < W)%Q → (0 < H)%Q →
  ∃ r : Rect, fit_rect W H = Ok r ∧ rect_is_empty r = false.
Proof.
  intros HW HH. eexists. split; [by apply fit_rect_pos|].
  pose proof (scale_pos W H HW HH) as Hs. cbv zeta in Hs.
  assert (∀ a d : Q, (0 < d)%Q → Qle_bool (a + d) a = false) as Hgrow.
  { intros a d Hd. destruct (Qle_bool (a + d) a) eqn:E; [|done].
    apply Qle_bool_iff in E. lra. }
  unfold rect_is_empty. cbn [x0 y0 x1 y1].
  by rewrite !Hgrow by (by apply Qmult_lt_0_compat).
Qed.

(** The loop completes on pages that have contents. *)
Lemma resize_pages_succeeds (src rest : list Page) :
  ∀ (dst : Document) (pno : nat),
    (∀ (i : nat) (sp : Page), rest !! i = Some sp →
       ∃ sp' : Page, src !! (pno + i) = Some sp' ∧ has_contents sp' = true) →
    ∃ out : Document, resize_pages dst src pno rest = Ok out.
Proof.
  induction rest as [|sp rest IH]; intros dst pno Hink; [by eexists|].
  destruct (Hink 0 sp eq_refl) as (sp' & Hsp' & Hink').
  rewrite Nat.add_0_r in Hsp'.
  destruct (rect_sides_positive sp) as [HW HH].
  destruct (fit_rect_is_not_empty _ _ HW HH) as (dest & Hfit & Hrect).
  cbn [resize_pages].
  rewrite (resize_page_succeeds dst src pno sp sp' dest) by done.
  apply IH. intros i sp0 Hsp0. rewrite Nat.add_succ_comm.
  exact (Hink (S i) sp0 Hsp0).
Qed.

(** A page of the size the output pages have is fitted at a scale just below
    1, over the full height and all but a sliver of the width. *)
Lemma fit_rect_b5_page :
  ∃ (s : Q) (r : Rect),
    fit_scale (f32 B5_W_PT) (f32 B5_H_PT) = Ok s ∧
    (1 - 1 / 10000000 < s)%Q ∧ (s < 1)%Q ∧
    fit_rect (f32 B5_W_PT) (f32 B5_H_PT) = Ok r ∧
    nearly_full_page r ∧ ¬ Rect_equiv r full_page.
Proof.
  eexists _, _. split; [vm_compute; reflexivity|].
  split; [vm_compute; reflexivity|]. split; [vm_compute; reflexivity|].
  split; [vm_compute; reflexivity|]. split.
  - split_and!; vm_compute; reflexivity.
  - intros (Hx0 & _). vm_compute in Hx0. discriminate Hx0.
Qed.

(** X5: resizing the output of a resize does not quite reproduce it.  The
    pages the first call saved have the single-precision size, a little larger
    than the target, so that, in exact arithmetic, a second call shows every one
    of them at one and the same scale just below 1 (by less than 1e-7): over the
    full height of the target page, with a margin of less than 1e-5 points on
    the left and on the right, and not over the whole page. *)
Theorem resize_twice_nearly_fills_page (p1 p2 p3 : Path) (w w1 w2 : World) :
  resize_pdf_to_b5 p1 p2 w = (Ok tt, w1) →
  resize_pdf_to_b5 p2 p3 w1 = (Ok tt, w2) →
  ∃ (s : Q) (r : Rect),
    fit_scale (f32 B5_W_PT) (f32 B5_H_PT) = Ok s ∧
    (1 - 1 / 10000000 < s)%Q ∧ (s < 1)%Q ∧
    fit_rect (f32 B5_W_PT) (f32 B5_H_PT) = Ok r ∧
    nearly_full_page r ∧ ¬ Rect_equiv r full_page ∧
    ∃ src dst : Document,
      fs w !! path_str p1 = Some (PdfFile src) ∧
      fs w2 !! path_str p3 = Some (PdfFile dst) ∧
      length dst = length src ∧
      ∀ (n : nat) (dp : Page), dst !! n = Some dp → shown dp = [(r, n)].
Proof.
  intros (src & mid & Hsrc & Hloop1 & _ & Hfs1)%resize_pdf_to_b5_ok
         (mid' & dst & Hmid & Hloop2 & _ & Hfs2)%resize_pdf_to_b5_ok.
  destruct fit_rect_b5_page as (s & r & Hs & Hlo & Hhi & Hr & Hnear & Hnot).
  exists s, r.
  split; [exact Hs|]. split; [exact Hlo|]. split; [exact Hhi|].
  split; [exact Hr|]. split; [exact Hnear|]. split; [exact Hnot|].
  clear Hs Hlo Hhi Hnear Hnot.
  rewrite Hfs1, lookup_insert_eq in Hmid. injection Hmid as <-.
  apply resize_pages_ok in Hloop1 as (new1 & -> & Hlen1 & Hnew1).
  apply resize_pages_ok in Hloop2 as (new2 & -> & Hlen2 & Hnew2).
  rewrite !app_nil_l in *. exists src, new2.
  split; [exact Hsrc|]. split; [rewrite Hfs2; apply lookup_insert_eq|].
  split; [congruence|].
  intros n dp Hdp.
  destruct (new1 !! n) as [sp|] eqn:Hsp.
  - destruct (Hnew2 n sp Hsp) as (dest & Hfit & Hn).
    rewrite Hdp in Hn. injection Hn as ->.
    destruct (src !! n) as [sp0|] eqn:Hsp0.
    + destruct (Hnew1 n sp0 Hsp0) as (dest0 & _ & Hn1).
      rewrite Hsp in Hn1. injection Hn1 as ->.
      destruct (fitted_page_rect dest0 n) as [HW HH].
      rewrite HW, HH, Hr in Hfit. injection Hfit as <-. reflexivity.
    + apply lookup_ge_None in Hsp0. apply lookup_lt_Some in Hsp. lia.
  - apply lookup_ge_None in Hsp. apply lookup_lt_Some in Hdp. lia.
Qed.

Lemma resize_twice_nearly_fills_page_witness :
  let p1 := path_of_str "/docs/report.pdf" in
  let p2 := path_of_str "/docs/report_B5.pdf" in
  let p3 := path_of_str "/docs/report_B5_B5.pdf" in
  let w1 := (resize_pdf_to_b5 p1 p2 sample_world).2 in
  let w2 := (resize_pdf_to_b5 p2 p3 w1).2 in
  resize_pdf_to_b5 p1 p2 sample_world = (Ok tt, w1) ∧
  resize_pdf_to_b5 p2 p3 w1 = (Ok tt, w2) ∧
  ∃ (s : Q) (r : Rect),
    fit_scale (f32 B5_W_PT) (f32 B5_H_PT) = Ok s ∧
    (1 - 1 / 10000000 < s)%Q ∧ (s < 1)%Q ∧
    fit_rect (f32 B5_W_PT) (f32 B5_H_PT) = Ok r ∧
    nearly_full_page r ∧ ¬ Rect_equiv r full_page ∧
    ∃ src dst : Document,
      fs sample_world !! path_str p1 = Some (PdfFile src) ∧
      fs w2 !! path_str p3 = Some (PdfFile dst) ∧
      length dst = length src ∧
      ∀ (n : nat) (dp : Page), dst !! n = Some dp → shown dp = [(r, n)].
Proof.
  intros p1 p2 p3 w1 w2.
  assert (resize_pdf_to_b5 p1 p2 sample_world = (Ok tt, w1)) as H1
    by (vm_compute; reflexivity).
  assert (resize_pdf_to_b5 p2 p3 w1 = (Ok tt, w2)) as H2
    by (vm_compute; reflexivity).
  split; [exact H1|]. split; [exact H2|].
  exact (resize_twice_nearly_fills_page p1 p2 p3 sample_world w1 w2 H1 H2).
Defined.

Lemma resize_pdf_to_b5_frame (input_path output_path : Path) (w : World)
    (k : string) :
  k ≠ path_str output_path →
  fs (resize_pdf_to_b5 input_path output_path w).2 !! k = fs w !! k.
Proof.
  intros Hk. rewrite resize_pdf_to_b5_unfold. cbv zeta.
  destruct (fs w !! path_str input_path) as [[src|]|]; [|done..].
  destruct (resize_pages [] src 0 src) as [dst|e]; [|done].
  unfold fitz_save. destruct dst as [|dp dst]; [done|].
  simpl. destruct (save_fault w _ _); [done|].
  simpl. by rewrite lookup_insert_ne.
Qed.

(** X6: the resize operation touches no file other than the one at its output
    path, whether it succeeds or raises; in particular an input at another path
    is left as it was. *)
Theorem resize_writes_only_output (input_path output_path : Path) (w : World)
    (k : string) :
  k ≠ path_str output_path →
  fs (resize_pdf_to_b5 input_path output_path w).2 !! k = fs w !! k.
Proof. apply resize_pdf_to_b5_frame. Qed.

Lemma resize_writes_only_output_witness :
  let input_path := path_of_str "/docs/report.pdf" in
  let output_path := path_of_str "/docs/report_B5.pdf" in
  "/docs/report.pdf" ≠ path_str output_path ∧
  fs (resize_pdf_to_b5 input_path output_path sample_world).2 !! "/docs/report.pdf"
    = fs sample_world !! "/docs/report.pdf".
Proof.
  intros input_path output_path.
  assert ("/docs/report.pdf" ≠ path_str output_path) as Hk
    by (vm_compute; discriminate).
  split; [exact Hk|].
  exact (resize_writes_only_output input_path output_path sample_world _ Hk).
Defined.

(** X7: where a page is placed depends on the size of that page only.  When
    two documents are converted and the library reports the same width and
    height for their pages number [n], the two outputs show their page [n] in
    the same rectangle, the one fitted to that size, whatever the other pages
    are.  (What is shown there is page [n] of the respective source.) *)
Theorem target_rect_depends_on_own_page (src src' out out' : Document)
    (n : nat) (sp sp' : Page) :
  resize_pages [] src 0 src = Ok out →
  resize_pages [] src' 0 src' = Ok out' →
  src !! n = Some sp → src' !! n = Some sp' →
  rect_width sp = rect_width sp' → rect_height sp = rect_height sp' →
  ∃ (dest : Rect) (dp dp' : Page),
    fit_rect (rect_width sp) (rect_height sp) = Ok dest ∧
    out !! n = Some dp ∧ out' !! n = Some dp' ∧
    shown dp = [(dest, n)] ∧ shown dp' = [(dest, n)].
Proof.
  intros (new & -> & _ & Hnew)%resize_pages_ok
         (new' & -> & _ & Hnew')%resize_pages_ok Hsp Hsp' HW HH.
  destruct (Hnew n sp Hsp) as (dest & Hfit & Hn).
  destruct (Hnew' n sp' Hsp') as (dest' & Hfit' & Hn').
  rewrite <- HW, <- HH, Hfit in Hfit'. injection Hfit' as <-.
  rewrite app_nil_l. by eexists dest, _, _.
Qed.

Lemma target_rect_depends_on_own_page_witness :
  let src := [a4_page; letter_landscape_page] in
  let src' := [mkPage 500 700 true []; mkPage 792 612 true []; a4_page] in
  ∃ out out' : Document,
    resize_pages [] src 0 src = Ok out ∧ resize_pages [] src' 0 src' = Ok out' ∧
    ∃ (dest : Rect) (dp dp' : Page),
      fit_rect 792 612 = Ok dest ∧
      out !! 1 = Some dp ∧ out' !! 1 = Some dp' ∧
      shown dp = [(dest, 1)] ∧ shown dp' = [(dest, 1)].
Proof.
  intros src src'.
  assert (∃ o, resize_pages [] src 0 src = Ok o) as [o Ho]
    by (eexists; vm_compute; reflexivity).
  assert (∃ o', resize_pages [] src' 0 src' = Ok o') as [o' Ho']
    by (eexists; vm_compute; reflexivity).
  exists o, o'. split; [exact Ho|]. split; [exact Ho'|].
  exact (target_rect_depends_on_own_page src src' o o' 1
           letter_landscape_page (mkPage 792 612 true [])
           Ho Ho' eq_refl eq_refl eq_refl eq_refl).
Defined.

(** ** More on strings and paths *)

Lemma str_app_assoc (a b c : string) : (a +:+ b) +:+ c = a +:+ (b +:+ c).
Proof.
  induction a as [|x a IH]; [done|]. rewrite !str_app_cons. by rewrite IH.
Qed.

Lemma str_lower_app (a b : string) :
  str_lower (a +:+ b) = str_lower a +:+ str_lower b.
Proof.
  induction a as [|x a IH]; [done|].
  rewrite str_app_cons. simpl. rewrite IH. by rewrite str_app_cons.
Qed.

Lemma str_lower_length (s : string) :
  String.length (str_lower s) = String.length s.
Proof. induction s as [|x s IH]; [done|]. simpl. by rewrite IH. Qed.

Lemma str_take_drop (n : nat) (s : string) : str_take n s +:+ str_drop n s = s.
Proof.
  revert s. induction n as [|n IH]; intros [|x s]; try done.
  simpl. rewrite str_app_cons. by rewrite IH.
Qed.

Lemma str_drop_app (a b : string) : str_drop (String.length a) (a +:+ b) = b.
Proof. induction a as [|x a IH]; [by destruct b|]. by rewrite str_app_cons. Qed.

Lemma str_endswith_app (a b : string) : str_endswith (a +:+ b) b = true.
Proof.
  unfold str_endswith. rewrite str_length_app.
  apply andb_true_intro. split.
  - apply Nat.leb_le. lia.
  - replace (String.length a + String.length b - String.length b)
      with (String.length a) by lia.
    rewrite str_drop_app. by apply bool_decide_eq_true.
Qed.

Lemma str_app_nil_r (s : string) : s +:+ "" = s.
Proof. induction s as [|x s IH]; [done|]. rewrite str_app_cons. by rewrite IH. Qed.

(** The name of a path is its stem followed by its suffix. *)
Lemma path_stem_suffix (p : Path) : path_stem p +:+ path_suffix p = path_name p.
Proof.
  unfold path_stem, path_suffix. case_match.
  - apply str_take_drop.
  - apply str_app_nil_r.
Qed.

(** The string of a path with a name ends with that name. *)
Lemma str_join_ends_with_last (l : list string) (x : string) :
  ∃ a : string, str_join sep (l ++ [x]) = a +:+ x.
Proof.
  induction l as [|y l [a IH]]; [by exists ""|].
  exists (y +:+ String sep a).
  change ((y :: l) ++ [x]) with (y :: (l ++ [x])).
  destruct (l ++ [x]) as [|z t] eqn:Happ; [by destruct l|].
  change (str_join sep (y :: z :: t)) with (y +:+ String sep (str_join sep (z :: t))).
  rewrite IH. by rewrite str_app_assoc, str_app_cons.
Qed.

Lemma path_str_ends_with_name (p : Path) :
  path_name p ≠ "" → ∃ a : string, path_str p = a +:+ path_name p.
Proof.
  intros Hname. unfold path_name in *.
  destruct (last (tail p)) as [x|] eqn:Hlast; [|done]. simpl in *.
  apply last_Some in Hlast as [l Hl].
  destruct (str_join_ends_with_last l x) as [a Ha].
  exists (root p +:+ a). unfold path_str. rewrite Hl, Ha, <- str_app_assoc.
  destruct ((root p +:+ a) +:+ x) eqn:Hs; [|done].
  apply (f_equal String.length) in Hs. rewrite str_length_app in Hs.
  destruct x; [done|]. simpl in Hs. lia.
Qed.

(** ** Drag and drop *)

Section Drop.
Import MainWindow.

Lemma dropEvent_cons (self : t) (u : string) (rest : list string) (w : World) :
  dropEvent self (u :: rest) w =
    if DropArea.droppable u w then set_input_file self (path_of_str u)
    else dropEvent self rest w.
Proof. reflexivity. Qed.

(** X8: a drop in which no item is an existing file with the [".pdf"]
    extension leaves the window as it was: neither the input field nor the
    output name changes.  This covers the empty drop, non-PDF files and files
    that do not exist. *)
Theorem drop_without_pdf_changes_nothing (self : t) (urls : list string)
    (w : World) :
  Forall (λ u, DropArea.droppable u w = false) urls →
  dropEvent self urls w = self.
Proof.
  induction 1 as [|u rest Hu _ IH]; [done|].
  by rewrite dropEvent_cons, Hu.
Qed.

Lemma drop_without_pdf_changes_nothing_witness :
  let urls := ["/docs/notes.txt"; "/docs/missing.pdf"] in
  Forall (λ u, DropArea.droppable u sample_world = false) urls ∧
  dropEvent init urls sample_world = init.
Proof.
  intros urls.
  assert (Forall (λ u, DropArea.droppable u sample_world = false) urls) as Hnone
    by (repeat constructor; vm_compute; reflexivity).
  split; [exact Hnone|].
  exact (drop_without_pdf_changes_nothing init urls sample_world Hnone).
Defined.



(** What [run] checks before it goes on (lines 129-135), for the input a
    selection of [Path(u)] leaves in the window. *)
Lemma selected_droppable_is_valid (self : t) (u : string) (w : World) :
  DropArea.droppable u w = true →
  let in_path := path_of_str (input_edit (set_input_file self (path_of_str u))) in
  input_edit (set_input_file self (path_of_str u)) ≠ "" ∧
  path_exists in_path w = true ∧
  str_lower (path_suffix in_path) = ".pdf".
Proof.
  intros [Hpdf Hex]%andb_true_iff. cbv zeta.
  rewrite set_input_file_input, path_str_roundtrip.
  split_and!; [apply path_str_nonempty|done|].
  by apply bool_decide_eq_true in Hpdf.
Qed.

(** X10: whatever a drop puts into the input field passes the checks of
    [run] in the same world: either the drop changed nothing, or the input is
    set, exists and has the [".pdf"] extension, so that [run] goes on to
    resolve the output path instead of showing a validation message. *)
Theorem dropped_input_is_valid (self : t) (urls : list string) (w : World) :
  let self' := dropEvent self urls w in
  let in_path := path_of_str (input_edit self') in
  self' = self ∨
  (input_edit self' ≠ "" ∧ path_exists in_path w = true ∧
   str_lower (path_suffix in_path) = ".pdf" ∧
   ∀ out : Path, resolve_output self' in_path = Ok out →
     run self' w =
       if path_exists out w then
         let q := path_name out +:+ " を上書きしますか？" in
         let w1 := emit (Question "確認" q) w in
         if decide (answer w q = Yes) then convert in_path out w1 else (Ok tt, w1)
       else convert in_path out w).
Proof.
  cbv zeta. induction urls as [|u rest IH]; [by left|].
  rewrite dropEvent_cons. destruct (DropArea.droppable u w) eqn:Hu; [|done].
  right. destruct (selected_droppable_is_valid self u w Hu) as (H1 & H2 & H3).
  split_and!; [done..|]. intros out Hout. by apply run_accepted.
Qed.

End Drop.

(** An accepted item in normal form has a string that ends with [".pdf"] up
    to case. *)
Lemma pdf_suffix_endswith (u : string) :
  path_str (path_of_str u) = u →
  str_lower (path_suffix (path_of_str u)) = ".pdf" →
  str_endswith (str_lower u) ".pdf" = true.
Proof.
  intros Hnorm Hpdf.
  destruct (path_str_ends_with_name (path_of_str u)) as [a Ha];
    [by apply pdf_suffix_name|].
  rewrite Hnorm, <- path_stem_suffix, <- str_app_assoc in Ha.
  rewrite Ha, str_lower_app, Hpdf. apply str_endswith_app.
Qed.

(** X11: the drag test is no stricter than the drop test.  When a dragged
    item whose local file is written in pathlib's normal form would be taken by
    the drop handler, the drag had been accepted. *)
Theorem drag_accepts_what_drop_takes (urls : list string) (u : string)
    (w : World) :
  u ∈ urls →
  path_str (path_of_str u) = u →
  DropArea.droppable u w = true →
  DropArea.dragEnterEvent true urls = true.
Proof.
  intros Hin Hnorm [Hpdf _]%andb_true_iff.
  apply bool_decide_eq_true in Hpdf.
  unfold DropArea.dragEnterEvent. simpl. apply existsb_exists.
  exists u. split; [by apply list_elem_of_In|by apply pdf_suffix_endswith].
Qed.

Lemma drag_accepts_what_drop_takes_witness :
  let urls := ["/docs/notes.txt"; "/docs/report.pdf"] in
  "/docs/report.pdf" ∈ urls ∧
  path_str (path_of_str "/docs/report.pdf") = "/docs/report.pdf" ∧
  DropArea.droppable "/docs/report.pdf" sample_world = true ∧
  DropArea.dragEnterEvent true urls = true.
Proof.
  intros urls.
  assert ("/docs/report.pdf" ∈ urls) as Hin
    by (apply list_elem_of_In; vm_compute; tauto).
  assert (path_str (path_of_str "/docs/report.pdf") = "/docs/report.pdf") as Hnorm
    by (vm_compute; reflexivity).
  assert (DropArea.droppable "/docs/report.pdf" sample_world = true) as Hu
    by (vm_compute; reflexivity).
  split; [exact Hin|]. split; [exact Hnorm|]. split; [exact Hu|].
  exact (drag_accepts_what_drop_takes urls "/docs/report.pdf" sample_world Hin Hnorm Hu).
Defined.

(** ** Stripping *)

(** A byte below 128 is no part of a whitespace character of several
    bytes. *)
Ltac low_byte :=
  unfold ws2, ws3, byte_is;
  repeat match goal with
  | H : nat_of_ascii ?x < 128 |- context [nat_of_ascii ?x =? ?n] =>
      rewrite (proj2 (Nat.eqb_neq (nat_of_ascii x) n)) by lia
  | H : nat_of_ascii ?x < 128 |- context [?n <=? nat_of_ascii ?x] =>
      rewrite (proj2 (Nat.leb_gt n (nat_of_ascii x))) by lia
  end;
  repeat (rewrite ?andb_false_r, ?orb_false_r; cbn [andb orb]);
  reflexivity.

Lemma ws2_low_l (x c : ascii) : nat_of_ascii x < 128 → ws2 x c = false.
Proof. intros Hx. low_byte. Qed.

Lemma ws2_low_r (c x : ascii) : nat_of_ascii x < 128 → ws2 c x = false.
Proof. intros Hx. low_byte. Qed.

Lemma ws3_low_1 (x d e : ascii) : nat_of_ascii x < 128 → ws3 x d e = false.
Proof. intros Hx. low_byte. Qed.

Lemma ws3_low_2 (c x e : ascii) : nat_of_ascii x < 128 → ws3 c x e = false.
Proof. intros Hx. low_byte. Qed.

Lemma ws3_low_3 (c d x : ascii) : nat_of_ascii x < 128 → ws3 c d x = false.
Proof. intros Hx. low_byte. Qed.

(** The equations of [strip_front], one for each way through it. *)
Lemma strip_front_space (back : bool) (c : ascii) (r : string) :
  ascii_isspace c = true → strip_front back (String c r) = strip_front back r.
Proof. intros Hc. simpl. by rewrite Hc. Qed.

Lemma strip_front_one (back : bool) (c : ascii) :
  ascii_isspace c = false → strip_front back (String c "") = String c "".
Proof. intros Hc. simpl. by rewrite Hc. Qed.

Lemma strip_front_ws2 (back : bool) (c d : ascii) (r : string) :
  ascii_isspace c = false → (if back then ws2 d c else ws2 c d) = true →
  strip_front back (String c (String d r)) = strip_front back r.
Proof. intros Hc Hcd. simpl. by rewrite Hc, Hcd. Qed.

Lemma strip_front_two (back : bool) (c d : ascii) :
  ascii_isspace c = false → (if back then ws2 d c else ws2 c d) = false →
  strip_front back (String c (String d "")) = String c (String d "").
Proof. intros Hc Hcd. simpl. by rewrite Hc, Hcd. Qed.

Lemma strip_front_ws3 (back : bool) (c d e : ascii) (r : string) :
  ascii_isspace c = false → (if back then ws2 d c else ws2 c d) = false →
  (if back then ws3 e d c else ws3 c d e) = true →
  strip_front back (String c (String d (String e r))) = strip_front back r.
Proof. intros Hc Hcd Hcde. simpl. by rewrite Hc, Hcd, Hcde. Qed.

Lemma strip_front_stop (back : bool) (c d e : ascii) (r : string) :
  ascii_isspace c = false → (if back then ws2 d c else ws2 c d) = false →
  (if back then ws3 e d c else ws3 c d e) = false →
  strip_front back (String c (String d (String e r)))
    = String c (String d (String e r)).
Proof. intros Hc Hcd Hcde. simpl. by rewrite Hc, Hcd, Hcde. Qed.

(** Stripping stops at a character below 128 that is no whitespace. *)
Lemma strip_front_low (back : bool) (x : ascii) (b : string) :
  ascii_isspace x = false → nat_of_ascii x < 128 →
  strip_front back (String x b) = String x b.
Proof.
  intros Hsp Hlow. destruct b as [|d [|e b]].
  - by apply strip_front_one.
  - apply strip_front_two; [done|].
    destruct back; [by apply ws2_low_r|by apply ws2_low_l].
  - apply strip_front_stop; [done| |].
    + destruct back; [by apply ws2_low_r|by apply ws2_low_l].
    + destruct back; [by apply ws3_low_3|by apply ws3_low_1].
Qed.

(** What follows such a character is kept, whatever precedes it. *)
Lemma strip_front_app (back : bool) (x : ascii) (b : string) :
  ascii_isspace x = false → nat_of_ascii x < 128 →
  ∀ a : string,
    strip_front back (a +:+ String x b) = strip_front back a +:+ String x b.
Proof.
  intros Hsp Hlow a.
  remember (String.length a) as n eqn:Hn. revert a Hn.
  induction n as [n IH] using lt_wf_ind. intros a ->.
  assert (∀ a' : string, String.length a' < String.length a →
            strip_front back (a' +:+ String x b)
              = strip_front back a' +:+ String x b) as IH'.
  { intros a' Hlt. by eapply IH. }
  clear IH. destruct a as [|c a].
  { rewrite !str_app_nil_l. by apply strip_front_low. }
  rewrite str_app_cons. destruct (ascii_isspace c) eqn:Hc.
  { rewrite !strip_front_space by done. apply IH'. simpl. lia. }
  destruct a as [|d a].
  { rewrite str_app_nil_l, strip_front_one by done.
    destruct b as [|e b].
    - apply strip_front_two; [done|].
      destruct back; [by apply ws2_low_l|by apply ws2_low_r].
    - apply strip_front_stop; [done| |].
      + destruct back; [by apply ws2_low_l|by apply ws2_low_r].
      + destruct back; by apply ws3_low_2. }
  rewrite str_app_cons.
  destruct (if back then ws2 d c else ws2 c d) eqn:Hcd.
  { rewrite !strip_front_ws2 by done. apply IH'. simpl. lia. }
  destruct a as [|e a].
  { rewrite str_app_nil_l, strip_front_two by done.
    apply strip_front_stop; [done..|].
    destruct back; [by apply ws3_low_1|by apply ws3_low_3]. }
  rewrite str_app_cons.
  destruct (if back then ws3 e d c else ws3 c d e) eqn:Hcde.
  { rewrite !strip_front_ws3 by done. apply IH'. simpl. lia. }
  by rewrite !strip_front_stop.
Qed.

(** Stripping returns the end of the string. *)
Lemma strip_front_suffix (back : bool) (s : string) :
  ∃ pre : string, s = pre +:+ strip_front back s.
Proof.
  remember (String.length s) as n eqn:Hn. revert s Hn.
  induction n as [n IH] using lt_wf_ind. intros s ->.
  assert (∀ (pre s' : string), String.length s' < String.length s →
            s = pre +:+ s' → strip_front back s = strip_front back s' →
            ∃ pre' : string, s = pre' +:+ strip_front back s) as Hrec.
  { intros pre s' Hlt -> ->.
    destruct (IH _ Hlt s' eq_refl) as [pre' Hpre'].
    exists (pre +:+ pre'). by rewrite str_app_assoc, <- Hpre'. }
  assert (∃ pre' : string, s = pre' +:+ s) as Hself by (by exists "").
  clear IH. destruct s as [|c s]; [by exists ""|].
  destruct (ascii_isspace c) eqn:Hc.
  { apply (Hrec (String c "") s); [simpl; lia|done|by apply strip_front_space]. }
  destruct s as [|d s]; [by rewrite strip_front_one|].
  destruct (if back then ws2 d c else ws2 c d) eqn:Hcd.
  { apply (Hrec (String c (String d "")) s);
      [simpl; lia|done|by apply strip_front_ws2]. }
  destruct s as [|e s]; [by rewrite strip_front_two|].
  destruct (if back then ws3 e d c else ws3 c d e) eqn:Hcde.
  { apply (Hrec (String c (String d (String e ""))) s);
      [simpl; lia|done|by apply strip_front_ws3]. }
  by rewrite strip_front_stop.
Qed.

Lemma str_contains_lstrip (c : ascii) (s : string) :
  str_contains c s = false → str_contains c (str_lstrip s) = false.
Proof.
  intros Hs. destruct (strip_front_suffix false s) as [pre Hpre].
  rewrite Hpre, str_contains_app in Hs. by apply orb_false_iff in Hs as [_ ?].
Qed.

Lemma str_rev_app (a b : string) : str_rev (a +:+ b) = str_rev b +:+ str_rev a.
Proof.
  induction a as [|x a IH]; [by rewrite str_app_nil_l, str_app_nil_r|].
  rewrite str_app_cons. simpl. by rewrite IH, str_app_assoc.
Qed.

Lemma str_rev_involutive (s : string) : str_rev (str_rev s) = s.
Proof.
  induction s as [|x s IH]; [done|]. simpl. by rewrite str_rev_app, IH.
Qed.

Lemma str_lstrip_app (a b : string) (x : ascii) :
  ascii_isspace x = false → nat_of_ascii x < 128 →
  str_lstrip (a +:+ String x b) = str_lstrip a +:+ String x b.
Proof. intros Hsp Hlow. by apply strip_front_app. Qed.

(** A string that ends with a character below 128 that is no whitespace has
    nothing to strip at its end. *)
Lemma str_rstrip_app (a : string) (x : ascii) :
  ascii_isspace x = false → nat_of_ascii x < 128 →
  str_rstrip (a +:+ String x "") = a +:+ String x "".
Proof.
  intros Hsp Hlow. unfold str_rstrip.
  rewrite str_rev_app. change (str_rev (String x "")) with (String x "").
  rewrite str_app_cons, str_app_nil_l, strip_front_low by done.
  change (String x (str_rev a)) with (str_rev (String x "") +:+ str_rev a).
  by rewrite <- str_rev_app, str_rev_involutive.
Qed.

(** Stripping a derived default name removes the leading whitespace of the
    stem and nothing else. *)
Lemma str_strip_default (stem : string) :
  str_strip (stem +:+ "_" +:+ "B5" +:+ ".pdf") = str_lstrip stem +:+ "_B5.pdf".
Proof.
  unfold str_strip.
  change ("_" +:+ "B5" +:+ ".pdf") with (String "_"%char "B5.pdf").
  rewrite str_lstrip_app by (done || (vm_compute; lia)).
  change (String "_"%char "B5.pdf") with ("_B5.pd" +:+ String "f"%char "").
  rewrite <- str_app_assoc.
  by apply str_rstrip_app; [|vm_compute; lia].
Qed.

Example str_strip_unicode :
  (str_strip (ideographic_space +:+ "report_B5.pdf"),
   str_strip (" " +:+ no_break_space +:+ "a b.pdf" +:+ ideographic_space +:+ nl),
   str_strip (ideographic_space +:+ no_break_space),
   str_lstrip (String "128"%char "x"), str_rstrip (String "x"%char (String "194"%char "")))
  = ("report_B5.pdf", "a b.pdf", "",
     String "128"%char "x", String "x"%char (String "194"%char "")).
Proof. reflexivity. Qed.

(** ** More on the shell *)

Section Window.
Import MainWindow.

Lemma default_name_nonempty (stem : string) : stem +:+ "_" +:+ "B5" +:+ ".pdf" ≠ "".
Proof.
  intros Heq. apply (f_equal String.length) in Heq.
  rewrite !str_length_app in Heq. simpl in Heq. lia.
Qed.

Lemma set_input_file_output (self : t) (p : Path) :
  output_name_edit (set_input_file self p) =
    if decide (output_name_edit self = "")
    then path_stem (path_of_str (path_str p)) +:+ "_" +:+ "B5" +:+ ".pdf"
    else output_name_edit self.
Proof.
  unfold set_input_file, refresh_default_output. simpl.
  rewrite decide_False by apply path_str_nonempty.
  by case_decide.
Qed.

(** X12: once a selection has filled the output-name field, a later selection
    leaves it alone.  Selecting a first and then a second file into a window
    whose name field was empty ends with the second file as input and the
    default derived from the FIRST file as output name. *)
Theorem second_selection_keeps_output_name (self : t) (s1 s2 : string) :
  output_name_edit self = "" →
  let self2 := set_input_file (set_input_file self (path_of_str s1))
                              (path_of_str s2) in
  input_edit self2 = path_str (path_of_str s2) ∧
  output_name_edit self2 = path_stem (path_of_str s1) +:+ "_" +:+ "B5" +:+ ".pdf".
Proof.
  intros Hempty self2. subst self2. split; [apply set_input_file_input|].
  rewrite set_input_file_output.
  rewrite decide_False.
  - rewrite set_input_file_output, decide_True by done.
    by rewrite path_str_roundtrip.
  - rewrite set_input_file_output, decide_True by done.
    apply default_name_nonempty.
Qed.

Lemma second_selection_keeps_output_name_witness :
  let self2 := set_input_file (set_input_file init (path_of_str "/docs/report.pdf"))
                              (path_of_str "/docs/flat.pdf") in
  output_name_edit init = "" ∧
  input_edit self2 = "/docs/flat.pdf" ∧ output_name_edit self2 = "report_B5.pdf".
Proof.
  split; [reflexivity|].
  exact (second_selection_keeps_output_name init "/docs/report.pdf" "/docs/flat.pdf"
           eq_refl).
Defined.

(** X13: after any selection the output-name field is not empty, and
    recomputing the default (as a change of the size selector does) changes
    nothing. *)
Theorem selection_leaves_name (self : t) (p : Path) :
  output_name_edit (set_input_file self p) ≠ "" ∧
  refresh_default_output (set_input_file self p) = set_input_file self p.
Proof.
  assert (output_name_edit (set_input_file self p) ≠ "") as Hne.
  { rewrite set_input_file_output. case_decide; [apply default_name_nonempty|done]. }
  split; [done|].
  unfold refresh_default_output at 1.
  rewrite set_input_file_input, decide_False by apply path_str_nonempty.
  simpl. by rewrite decide_False.
Qed.

(** The output path [run] resolves, by cases on the stripped name field. *)
Lemma resolve_output_blank (self : t) (p : Path) :
  str_strip (output_name_edit self) = "" →
  resolve_output self p = path_with_name p (path_stem p +:+ "_" +:+ "B5" +:+ ".pdf").
Proof. intros Hblank. unfold resolve_output. simpl. by rewrite Hblank. Qed.

Lemma resolve_output_named (self : t) (p : Path) :
  str_strip (output_name_edit self) ≠ "" →
  resolve_output self p = path_with_name p (str_strip (output_name_edit self)).
Proof.
  intros Hname. unfold resolve_output. simpl.
  by destruct (str_strip (output_name_edit self)).
Qed.

(** X14: the name a selection writes into an empty field always resolves.
    For an input with the [".pdf"] extension, [run] after such a selection
    resolves the output path to the input's directory and the default name
    less the leading whitespace of the stem; no invalid-name error occurs. *)
Theorem auto_name_resolves (self : t) (s : string) :
  let p := path_of_str s in
  output_name_edit self = "" →
  str_lower (path_suffix p) = ".pdf" →
  resolve_output (set_input_file self p) p
    = Ok (mkPath (root p)
                 (removelast (tail p) ++ [str_lstrip (path_stem p) +:+ "_B5.pdf"])).
Proof.
  intros p Hempty Hpdf.
  assert (str_strip (output_name_edit (set_input_file self p))
            = str_lstrip (path_stem p) +:+ "_B5.pdf") as Hstrip.
  { rewrite set_input_file_output, decide_True by done.
    subst p. by rewrite path_str_roundtrip, str_strip_default. }
  rewrite resolve_output_named, Hstrip.
  - pose proof (path_stem_sep_free p (path_of_str_wf s)) as Hsep.
    apply str_contains_lstrip in Hsep.
    assert (2 ≤ String.length (str_lstrip (path_stem p) +:+ "_B5.pdf")) as Hlen.
    { rewrite str_length_app. simpl. lia. }
    apply path_with_name_ok; [by apply pdf_suffix_name| | |].
    + intros Heq. rewrite Heq in Hlen. simpl in Hlen. lia.
    + intros Heq. rewrite Heq in Hlen. simpl in Hlen. lia.
    + by rewrite str_contains_app, Hsep.
  - rewrite Hstrip. intros Heq. apply (f_equal String.length) in Heq.
    rewrite str_length_app in Heq. simpl in Heq. lia.
Qed.

Lemma auto_name_resolves_witness :
  let s := "/docs/" +:+ ideographic_space +:+ " report.PDF" in
  output_name_edit init = "" ∧
  str_lower (path_suffix (path_of_str s)) = ".pdf" ∧
  resolve_output (set_input_file init (path_of_str s)) (path_of_str s)
    = Ok (path_of_str "/docs/report_B5.pdf").
Proof.
  intros s. split; [reflexivity|]. split; [reflexivity|].
  exact (auto_name_resolves init s eq_refl eq_refl).
Defined.

End Window.

Section Run.
Import MainWindow.

(** The try/except of lines 149-155 always returns normally, with one dialog
    after the call, and changes the files as the call did. *)
Lemma convert_returns (in_path out_path : Path) (w : World) :
  (convert in_path out_path w).1 = Ok tt ∧
  fs (convert in_path out_path w).2 = fs (resize_pdf_to_b5 in_path out_path w).2 ∧
  ∃ m : Event,
    is_dialog m = true ∧
    events (convert in_path out_path w).2
      = events w ++ [ResizeCall (path_str in_path) (path_str out_path)] ++ [m].
Proof.
  unfold convert.
  pose proof (resize_pdf_to_b5_events in_path out_path w) as Hev.
  destruct (resize_pdf_to_b5 in_path out_path w) as [[[]|e] w'];
    simpl in *; rewrite Hev; (split_and!; [done..|]);
    eexists; (split; [|by rewrite <- app_assoc]); done.
Qed.

Lemma path_with_name_invalid (p : Path) (name : string) :
  path_name p ≠ "" →
  str_contains sep name = true ∨ name = "." →
  path_with_name p name
    = Raise (ValueError ("Invalid name " +:+ ("'" +:+ name +:+ "'"))).
Proof.
  intros Hp Hbad. unfold path_with_name. rewrite decide_False by done.
  destruct Hbad as [Hsep| ->]; [|done].
  by rewrite Hsep, orb_true_r.
Qed.

(** A name without a separator has at most one component. *)
Lemma path_of_str_sep_free (name : string) :
  str_contains sep name = false → length (tail (path_of_str name)) ≤ 1.
Proof.
  intros Hsep. unfold path_of_str, splitroot.
  assert (starts_with_sep name = false) as ->.
  { destruct name as [|c name]; [done|]. simpl in *.
    by apply orb_false_iff in Hsep as [-> _]. }
  simpl. rewrite str_split_piece by done.
  rewrite filter_cons, filter_nil. case_decide; simpl; lia.
Qed.

(** X15: an output name of several components, or the name ["."], makes
    [run] raise.  With an accepted input and such a name in the field (after
    stripping), [run] ends with an uncaught [ValueError] that quotes the name,
    before any dialog or call: the world is exactly as before. *)
Theorem run_raises_on_invalid_name (self : t) (w : World) :
  let in_path := path_of_str (input_edit self) in
  let name := str_strip (output_name_edit self) in
  input_edit self ≠ "" →
  path_exists in_path w = true →
  str_lower (path_suffix in_path) = ".pdf" →
  2 ≤ length (tail (path_of_str name)) ∨ name = "." →
  ∃ quoted : string,
    run self w = (Raise (ValueError ("Invalid name " +:+ quoted)), w).
Proof.
  intros in_path name Hset Hexists Hpdf Hbad.
  assert (str_contains sep name = true ∨ name = ".") as Hbad'.
  { destruct Hbad as [Hparts|?]; [left|by right].
    destruct (str_contains sep name) eqn:Hsep; [done|].
    apply path_of_str_sep_free in Hsep. lia. }
  exists ("'" +:+ name +:+ "'"). unfold run.
  rewrite decide_False by done. fold in_path.
  rewrite Hexists, (bool_decide_eq_true_2 _ Hpdf). simpl.
  rewrite resolve_output_named.
  - fold name.
    by rewrite path_with_name_invalid by (by apply pdf_suffix_name || done).
  - fold name. destruct Hbad' as [Hsep| ->]; [|done].
    intros Heq. by rewrite Heq in Hsep.
Qed.

Lemma run_raises_on_invalid_name_witness :
  let self := edit_output_name
                (set_input_file init (path_of_str "/docs/report.pdf"))
                " out/b5.pdf " in
  (input_edit self ≠ "" ∧
   path_exists (path_of_str (input_edit self)) sample_world = true ∧
   str_lower (path_suffix (path_of_str (input_edit self))) = ".pdf" ∧
   2 ≤ length (tail (path_of_str (str_strip (output_name_edit self))))) ∧
  ∃ quoted : string,
    run self sample_world
      = (Raise (ValueError ("Invalid name " +:+ quoted)), sample_world).
Proof.
  intros self.
  assert (input_edit self ≠ "") as H1 by (vm_compute; discriminate).
  assert (path_exists (path_of_str (input_edit self)) sample_world = true)
    as H2 by (vm_compute; reflexivity).
  assert (str_lower (path_suffix (path_of_str (input_edit self))) = ".pdf")
    as H3 by (vm_compute; reflexivity).
  assert (2 ≤ length (tail (path_of_str (str_strip (output_name_edit self)))))
    as H4 by (vm_compute; lia).
  split; [by split_and!|].
  exact (run_raises_on_invalid_name self sample_world H1 H2 H3 (or_introl H4)).
Defined.

Example run_invalid_name_message :
  let self := MainWindow.edit_output_name
                (MainWindow.set_input_file MainWindow.init
                   (path_of_str "/docs/report.pdf"))
                " out/b5.pdf " in
  MainWindow.run self sample_world
    = (Raise (ValueError "Invalid name 'out/b5.pdf'"), sample_world).
Proof. vm_compute. reflexivity. Qed.

(** X16: [run] never returns without telling the user.  When it returns
    normally the last thing that happened is a message box (a validation
    message, the overwrite question, the failure or the completion message);
    when it raises, which it can only before the overwrite question, nothing
    has been shown or written. *)
Theorem run_returns_after_dialog (self : t) (w : World) :
  match (run self w).1 with
  | Ok _ =>
      ∃ (pre : list Event) (m : Event),
        events (run self w).2 = events w ++ pre ++ [m] ∧ is_dialog m = true
  | Raise _ => (run self w).2 = w
  end.
Proof.
  unfold run.
  destruct (decide (input_edit self = "")) as [Hempty|Hset].
  { simpl. by eexists [], _. }
  destruct (negb _ || negb _).
  { simpl. by eexists [], _. }
  destruct (resolve_output self (path_of_str (input_edit self))) as [out|e] eqn:Hout;
    [|done].
  assert (∀ w0 pre0, events w0 = events w ++ pre0 →
      match (convert (path_of_str (input_edit self)) out w0).1 with
      | Ok _ => ∃ pre m,
          events (convert (path_of_str (input_edit self)) out w0).2
            = events w ++ pre ++ [m] ∧ is_dialog m = true
      | Raise _ => (convert (path_of_str (input_edit self)) out w0).2 = w
      end) as Hconv.
  { intros w0 pre0 Hw0.
    destruct (convert_returns (path_of_str (input_edit self)) out w0)
      as (-> & _ & m & Hm & Hev).
    eexists (pre0 ++ [_]), m. rewrite Hev, Hw0. by rewrite <- !app_assoc. }
  destruct (path_exists out w).
  - cbv zeta. case_decide.
    + eapply Hconv. simpl. reflexivity.
    + simpl. by eexists [], _.
  - apply (Hconv _ []). by rewrite app_nil_r.
Qed.

(** X17: a run that meets no obstacle saves the converted document and says
    where.  With an accepted input that is a PDF of at least one page whose
    pages all have contents, an output path other than the input's that is free
    or whose overwriting the user confirms, and a disk that takes the write,
    [run] (with the geometry in exact arithmetic) returns normally, the file at
    the output path is the converted document (as many pages as the input), no
    other file changes, and the last event is the completion message with the
    output path. *)
Theorem run_saves_and_reports (self : t) (w : World) (out : Path)
    (src : Document) :
  let in_path := path_of_str (input_edit self) in
  let q := path_name out +:+ " を上書きしますか？" in
  input_edit self ≠ "" →
  str_lower (path_suffix in_path) = ".pdf" →
  fs w !! path_str in_path = Some (PdfFile src) →
  src ≠ [] →
  Forall (λ p : Page, has_contents p = true) src →
  resolve_output self in_path = Ok out →
  path_str out ≠ path_str in_path →
  (path_exists out w = true → answer w q = Yes) →
  (∀ doc : Document, save_fault w doc (path_str out) = None) →
  ∃ (dst : Document) (pre : list Event),
    resize_pages [] src 0 src = Ok dst ∧ length dst = length src ∧
    (run self w).1 = Ok tt ∧
    fs (run self w).2 = <[path_str out := PdfFile dst]> (fs w) ∧
    (∀ k : string, k ≠ path_str out → fs (run self w).2 !! k = fs w !! k) ∧
    events (run self w).2
      = events w ++ pre
        ++ [ResizeCall (path_str in_path) (path_str out);
            Information "完了" ("保存しました:" +:+ nl +:+ path_str out)].
Proof.
  intros in_path q Hset Hpdf Hsrc Hne Hink Hout _ Hyes Hdisk.
  destruct (resize_pages_succeeds src src [] 0) as [dst Hdst].
  { intros i sp Hsp. exists sp. split; [done|].
    by apply (Forall_lookup_1 _ _ _ _ Hink Hsp). }
  assert (length dst = length src) as Hlen.
  { apply resize_pages_ok in Hdst as (new & -> & Hlen & _). done. }
  assert (path_exists in_path w = true) as Hexists.
  { unfold path_exists. rewrite Hsrc. by apply bool_decide_eq_true. }
  assert (∀ w0 : World,
            fs w0 = fs w → save_fault w0 = save_fault w →
            convert in_path out w0 =
              (Ok tt,
               emit (Information "完了" ("保存しました:" +:+ nl +:+ path_str out))
                 (set_fs (<[path_str out := PdfFile dst]> (fs w))
                    (emit (ResizeCall (path_str in_path) (path_str out)) w0))))
    as Hconv.
  { intros w0 Hfs Hfault. unfold convert.
    rewrite resize_pdf_to_b5_unfold, Hfs, Hsrc. cbv zeta. rewrite Hdst.
    unfold fitz_save. destruct dst as [|dp dst]; [by destruct src|].
    simpl. rewrite Hfault, Hdisk. simpl. by rewrite Hfs. }
  exists dst, (if path_exists out w then [Question "確認" q] else []).
  split; [done|]. split; [done|].
  rewrite (run_accepted self w out) by done. cbv zeta. fold in_path q.
  destruct (path_exists out w).
  - rewrite decide_True by auto. rewrite Hconv by done. simpl.
    split_and!; [done..| |by rewrite <- !app_assoc].
    intros k Hk. by rewrite lookup_insert_ne.
  - rewrite Hconv by done. simpl.
    split_and!; [done..| |by rewrite <- !app_assoc].
    intros k Hk. by rewrite lookup_insert_ne.
Qed.

Lemma run_saves_and_reports_witness :
  let self := set_input_file init (path_of_str "/docs/report.pdf") in
  let in_path := path_of_str (input_edit self) in
  let out := path_of_str "/docs/report_B5.pdf" in
  let src := [a4_page; letter_landscape_page] in
  (input_edit self ≠ "" ∧
   str_lower (path_suffix in_path) = ".pdf" ∧
   fs sample_world !! path_str in_path = Some (PdfFile src) ∧
   src ≠ [] ∧
   Forall (λ p : Page, has_contents p = true) src ∧
   resolve_output self in_path = Ok out ∧
   path_str out ≠ path_str in_path ∧
   path_exists out sample_world = false) ∧
  ∃ (dst : Document) (pre : list Event),
    resize_pages [] src 0 src = Ok dst ∧ length dst = length src ∧
    (run self sample_world).1 = Ok tt ∧
    fs (run self sample_world).2 = <[path_str out := PdfFile dst]> (fs sample_world) ∧
    (∀ k : string, k ≠ path_str out →
       fs (run self sample_world).2 !! k = fs sample_world !! k) ∧
    events (run self sample_world).2
      = events sample_world ++ pre
        ++ [ResizeCall (path_str in_path) (path_str out);
            Information "完了" ("保存しました:" +:+ nl +:+ path_str out)].
Proof.
  intros self in_path out src.
  assert (input_edit self ≠ "") as H1 by (vm_compute; discriminate).
  assert (str_lower (path_suffix in_path) = ".pdf") as H2 by (vm_compute; reflexivity).
  assert (fs sample_world !! path_str in_path = Some (PdfFile src)) as H3
    by (vm_compute; reflexivity).
  assert (src ≠ []) as H4 by discriminate.
  assert (Forall (λ p : Page, has_contents p = true) src) as H5
    by (repeat constructor).
  assert (resolve_output self in_path = Ok out) as H6 by (vm_compute; reflexivity).
  assert (path_str out ≠ path_str in_path) as H7 by (vm_compute; discriminate).
  assert (path_exists out sample_world = false) as H8 by (vm_compute; reflexivity).
  split; [by split_and!|].
  apply (run_saves_and_reports self sample_world out src H1 H2 H3 H4 H5 H6 H7).
  - intros Hclash. rewrite H8 in Hclash. discriminate Hclash.
  - intros doc. reflexivity.
Defined.

(** A page without contents stops the conversion: the failure is reported,
    and nothing is written. *)
Example run_sample_blank :
  let self := MainWindow.set_input_file MainWindow.init
                (path_of_str "/docs/blank.pdf") in
  (MainWindow.run self sample_world).1 = Ok tt ∧
  fs (MainWindow.run self sample_world).2 = fs sample_world ∧
  events (MainWindow.run self sample_world).2
    = [ResizeCall "/docs/blank.pdf" "/docs/blank_B5.pdf";
       Critical "失敗" ("出力に失敗しました。" +:+ nl
                        +:+ "nothing to show - source page empty")].
Proof. split_and!; vm_compute; reflexivity. Qed.

(** [run] changes no file except, possibly, the one at the output path it
    resolved. *)
Lemma run_frame (self : t) (w : World) (k : string) :
  (∀ out : Path,
     resolve_output self (path_of_str (input_edit self)) = Ok out →
     k ≠ path_str out) →
  fs (run self w).2 !! k = fs w !! k.
Proof.
  intros Hk. unfold run.
  destruct (decide (input_edit self = "")); [done|].
  destruct (negb _ || negb _); [done|].
  destruct (resolve_output self (path_of_str (input_edit self))) as [out|e];
    [|done].
  specialize (Hk out eq_refl).
  assert (∀ w0 : World, fs w0 = fs w →
            fs (convert (path_of_str (input_edit self)) out w0).2 !! k = fs w !! k)
    as Hconv.
  { intros w0 Hw0.
    destruct (convert_returns (path_of_str (input_edit self)) out w0) as (_ & -> & _).
    by rewrite resize_pdf_to_b5_frame, Hw0. }
  destruct (path_exists out w); [|by apply Hconv].
  cbv zeta. case_decide; [by apply Hconv|done].
Qed.

(** X18: with an output name that has no path separator (after stripping),
    [run] changes no file other than the one at the output path it resolves;
    when it resolves none (validation failure, invalid name) it changes no file
    at all. *)
Theorem run_writes_only_output (self : t) (w : World) (k : string) :
  str_contains sep (str_strip (output_name_edit self)) = false →
  (∀ out : Path,
     resolve_output self (path_of_str (input_edit self)) = Ok out →
     k ≠ path_str out) →
  fs (run self w).2 !! k = fs w !! k.
Proof. intros _. apply run_frame. Qed.

Lemma run_writes_only_output_witness :
  let self := set_input_file init (path_of_str "/docs/report.pdf") in
  str_contains sep (str_strip (output_name_edit self)) = false ∧
  (∀ out : Path,
     resolve_output self (path_of_str (input_edit self)) = Ok out →
     "/docs/flat.pdf" ≠ path_str out) ∧
  fs (run self sample_world).2 !! "/docs/flat.pdf" = fs sample_world !! "/docs/flat.pdf".
Proof.
  intros self.
  assert (str_contains sep (str_strip (output_name_edit self)) = false) as Hsep
    by (vm_compute; reflexivity).
  assert (∀ out : Path,
            resolve_output self (path_of_str (input_edit self)) = Ok out →
            "/docs/flat.pdf" ≠ path_str out) as Hk.
  { intros out Hout. vm_compute in Hout. injection Hout as <-.
    vm_compute. discriminate. }
  split; [exact Hsep|]. split; [exact Hk|].
  exact (run_writes_only_output self sample_world "/docs/flat.pdf" Hsep Hk).
Defined.

(** The default output path is never the input path. *)
Lemma default_path_differs (p : Path) :
  path_wf p → str_lower (path_suffix p) = ".pdf" →
  path_str (mkPath (root p)
              (removelast (tail p) ++ [path_stem p +:+ "_" +:+ "B5" +:+ ".pdf"]))
    ≠ path_str p.
Proof.
  intros Hwf Hpdf Heq.
  pose proof (pdf_suffix_name p Hpdf) as Hname.
  unfold path_name in Hname.
  destruct (last (tail p)) as [name|] eqn:Hlast; [|done].
  apply last_Some in Hlast as [l Hl].
  assert (path_name p = name) as Hn by (unfold path_name; by rewrite Hl, last_snoc).
  destruct (default_name_valid (path_stem p) "B5") as (? & ? & ?);
    [by apply path_stem_sep_free|done|].
  assert (path_wf (mkPath (root p)
            (removelast (tail p) ++ [path_stem p +:+ "_" +:+ "B5" +:+ ".pdf"])))
    as Hwf'.
  { destruct Hwf as [Hroot Htail]. split; [done|]. simpl.
    rewrite Hl in Htail |- *. rewrite removelast_last.
    apply Forall_app in Htail as [Hl' _].
    apply Forall_app. split; [done|]. by repeat constructor. }
  apply (f_equal path_of_str) in Heq.
  rewrite !path_of_str_str in Heq by done.
  assert (String.length name = String.length (path_stem p) + 4) as Hlen.
  { rewrite <- Hn, <- path_stem_suffix, str_length_app. f_equal.
    apply (f_equal String.length) in Hpdf. by rewrite str_lower_length in Hpdf. }
  revert Heq Hlen. generalize (path_stem p) as stem. intros stem Heq Hlen.
  destruct p as [rt tl]. simpl in *. subst tl.
  rewrite removelast_last in Heq.
  injection Heq as Heq. apply app_inv_head in Heq. injection Heq as Heq.
  apply (f_equal String.length) in Heq. rewrite !str_length_app in Heq.
  simpl in Heq. lia.
Qed.

(** X19: with a blank output-name field [run] never touches its input.  For
    an accepted input the default output path differs from the input path, so
    the input file is the same after [run] as before, whatever the user
    answers and whether or not the conversion succeeds. *)
Theorem run_default_keeps_input (self : t) (w : World) :
  let in_path := path_of_str (input_edit self) in
  input_edit self ≠ "" →
  str_lower (path_suffix in_path) = ".pdf" →
  str_strip (output_name_edit self) = "" →
  fs (run self w).2 !! path_str in_path = fs w !! path_str in_path.
Proof.
  intros in_path Hset Hpdf Hblank. apply run_frame.
  intros out Hout. fold in_path in Hout.
  rewrite resolve_output_blank in Hout by done.
  destruct (default_name_valid (path_stem in_path) "B5") as (? & ? & ?);
    [by apply path_stem_sep_free, path_of_str_wf|done|].
  rewrite path_with_name_ok in Hout by (by apply pdf_suffix_name || done).
  injection Hout as <-. intros Heq. symmetry in Heq. revert Heq.
  by apply default_path_differs; [apply path_of_str_wf|].
Qed.

Lemma run_default_keeps_input_witness :
  let self := edit_output_name
                (set_input_file init (path_of_str "/docs/report.pdf")) "  " in
  let in_path := path_of_str (input_edit self) in
  (input_edit self ≠ "" ∧
   str_lower (path_suffix in_path) = ".pdf" ∧
   str_strip (output_name_edit self) = "") ∧
  fs (run self sample_world).2 !! path_str in_path
    = fs sample_world !! path_str in_path.
Proof.
  intros self in_path.
  assert (input_edit self ≠ "") as H1 by (vm_compute; discriminate).
  assert (str_lower (path_suffix in_path) = ".pdf") as H2 by (vm_compute; reflexivity).
  assert (str_strip (output_name_edit self) = "") as H3 by (vm_compute; reflexivity).
  split; [by split_and!|].
  exact (run_default_keeps_input self sample_world H1 H2 H3).
Defined.

End Run.

Section Selection.
Import MainWindow.

(** X20: choosing a file in the file dialog and dropping it on the window
    lead to the same window state, whenever the file is one the drop handler
    takes (it exists and has the [".pdf"] extension). *)
Theorem browse_equals_drop (self : t) (path : string) (w : World) :
  DropArea.droppable path w = true →
  browse_input self path = dropEvent self [path] w.
Proof.
  intros Hdrop. rewrite dropEvent_cons, Hdrop. unfold browse_input.
  case_decide as Hempty; [|done].
  subst path. vm_compute in Hdrop. discriminate Hdrop.
Qed.

Lemma browse_equals_drop_witness :
  DropArea.droppable "/docs//report.pdf" sample_world = true ∧
  browse_input init "/docs//report.pdf"
    = dropEvent init ["/docs//report.pdf"] sample_world.
Proof.
  assert (DropArea.droppable "/docs//report.pdf" sample_world = true) as Hdrop
    by (vm_compute; reflexivity).
  split; [exact Hdrop|].
  exact (browse_equals_drop init "/docs//report.pdf" sample_world Hdrop).
Defined.

(** X21: the input field always shows a path in normal form, and it is that
    very text that [run] checks and opens: after any selection, parsing the
    field and printing the path again gives the field's text back, and the path
    is the selected one. *)
Theorem input_field_round_trip (self : t) (s : string) :
  let self' := set_input_file self (path_of_str s) in
  path_of_str (input_edit self') = path_of_str s ∧
  path_str (path_of_str (input_edit self')) = input_edit self' ∧
  path_wf (path_of_str (input_edit self')).
Proof.
  cbv zeta. rewrite set_input_file_input, path_str_roundtrip.
  split_and!; [done..|apply path_of_str_wf].
Qed.

End Selection.
